(** * config_to_blender.py: the schema interpreter and its collaborators

    A shallow embedding of [config_to_blender.py].  The script reads a JSON
    config, derives a target name from the file name, compiles the [config]
    mapping into a geometry-node group (one interface socket per entry) and
    creates one material per key of [parts].

    Python values are embedded as the [json] type below (what [json.load]
    returns); Python floats are IEEE binary64 numbers, taken from the
    Standard Library's [SpecFloat] with [prec = 53] and [emax = 1024].
    The host ([bpy]) is embedded as a record of named registries. *)

From Stdlib Require Import ZArith String Ascii List Bool Lia SpecFloat.
From stdpp Require Import base option strings list gmap pretty.

Set Warnings "-register-all".
Local Open Scope Z_scope.

(** ** Python values *)

Module Py.

(** What [json.load] produces: [None], [bool], [int], [float], [str],
    [list] and [dict] (string keys, insertion ordered). *)
Inductive json :=
| JNull
| JBool (b : bool)
| JInt (z : Z)
| JFloat (f : spec_float)
| JStr (s : string)
| JList (l : list json)
| JObj (kvs : list (string * json)).

Inductive exn :=
| IndexError | KeyError | TypeError | ValueError | OverflowError | AttributeError.

(** A computation that either raises or returns. *)
Definition result (A : Type) : Type := exn + A.

Definition rbind {A B} (r : result A) (k : A -> result B) : result B :=
  match r with
  | inl e => inl e
  | inr a => k a
  end.

(** *** binary64 *)

Definition prec : Z := 53.
Definition emax : Z := 1024.

Definition fadd : spec_float -> spec_float -> spec_float := SFadd prec emax.
Definition fdiv : spec_float -> spec_float -> spec_float := SFdiv prec emax.
Definition fleb : spec_float -> spec_float -> bool := SFleb.

Definition is_finite (f : spec_float) : bool :=
  match f with
  | S754_zero _ | S754_finite _ _ _ => true
  | _ => false
  end.

(** [float(z)] for a Python int: rounding to nearest, ties to even. *)
Definition float_of_Z (z : Z) : spec_float := binary_normalize prec emax z 0 false.

(** The integer part of a finite float, rounded toward zero: what
    [int(x)] computes. *)
Definition trunc_finite (s : bool) (m : positive) (e : Z) : Z :=
  cond_Zopp s (Z.shiftl (Z.pos m) e).

(** [x == z] for a float [x] and an int [z]: Python compares the exact
    values. *)
Definition float_eq_Z (f : spec_float) (z : Z) : bool :=
  match f with
  | S754_zero _ => z =? 0
  | S754_finite s m e =>
      if 0 <=? e then cond_Zopp s (Z.pos m * 2 ^ e) =? z
      else cond_Zopp s (Z.pos m) =? z * 2 ^ (- e)
  | _ => false
  end.

(** *** Builtins whose text-level behaviour is not modelled

    [str] of a float and of a container, and [int]/[float] of a string
    follow Python's literal grammar; the interpreter only passes their
    results along, so they are taken as given. [None] is [ValueError]. *)
Record builtins := {
  str_float : spec_float -> string;
  repr_container : json -> string;
  int_of_str : string -> option Z;
  float_of_str : string -> option spec_float
}.

Section Builtins.
Variable B : builtins.

(** [isinstance(v, int)]; [bool] is a subclass of [int]. *)
Definition isinstance_int (v : json) : bool :=
  match v with
  | JInt _ | JBool _ => true
  | _ => false
  end.

Definition isinstance_str (v : json) : bool :=
  match v with
  | JStr _ => true
  | _ => false
  end.

Definition isinstance_bool (v : json) : bool :=
  match v with
  | JBool _ => true
  | _ => false
  end.

(** [int(v)] *)
Definition py_int (v : json) : result Z :=
  match v with
  | JInt z => inr z
  | JBool b => inr (Z.b2z b)
  | JFloat (S754_zero _) => inr 0
  | JFloat (S754_finite s m e) => inr (trunc_finite s m e)
  | JFloat (S754_infinity _) => inl OverflowError
  | JFloat S754_nan => inl ValueError
  | JStr s => match int_of_str B s with Some z => inr z | None => inl ValueError end
  | JNull | JList _ | JObj _ => inl TypeError
  end.

(** [float(v)] *)
Definition py_float (v : json) : result spec_float :=
  match v with
  | JInt z =>
      let f := float_of_Z z in
      if is_finite f then inr f else inl OverflowError
  | JBool b => inr (float_of_Z (Z.b2z b))
  | JFloat f => inr f
  | JStr s => match float_of_str B s with Some f => inr f | None => inl ValueError end
  | JNull | JList _ | JObj _ => inl TypeError
  end.

(** [v == z] for an int [z] *)
Definition py_eq_int (v : json) (z : Z) : bool :=
  match v with
  | JInt a => a =? z
  | JBool b => Z.b2z b =? z
  | JFloat f => float_eq_Z f z
  | _ => false
  end.

(** [str(v)] *)
Definition py_str (v : json) : string :=
  match v with
  | JNull => "None"
  | JBool true => "True"
  | JBool false => "False"
  | JInt z => pretty z
  | JFloat f => str_float B f
  | JStr s => s
  | JList _ | JObj _ => repr_container B v
  end.

(** [v[i]] for a non-negative literal index *)
Definition getitem (v : json) (i : nat) : result json :=
  match v with
  | JList l => match l !! i with Some x => inr x | None => inl IndexError end
  | JStr s => match String.get i s with
              | Some c => inr (JStr (String c EmptyString))
              | None => inl IndexError
              end
  | JObj _ => inl KeyError
  | _ => inl TypeError
  end.

(** [len(v)] *)
Definition py_len (v : json) : result nat :=
  match v with
  | JList l => inr (length l)
  | JStr s => inr (String.length s)
  | JObj kvs => inr (length kvs)
  | _ => inl TypeError
  end.

(** [sep.join(l)] *)
Fixpoint join (sep : string) (l : list string) : string :=
  match l with
  | [] => ""
  | [x] => x
  | x :: r => x +:+ sep +:+ join sep r
  end.

End Builtins.

(** [k in d] and [d[k]] for a dict *)
Fixpoint dict_get (d : list (string * json)) (k : string) : option json :=
  match d with
  | [] => None
  | (k', v) :: r => if String.eqb k' k then Some v else dict_get r k
  end.

Definition dict_has (d : list (string * json)) (k : string) : bool :=
  match dict_get d k with Some _ => true | None => false end.

Definition keys (d : list (string * json)) : list string := map fst d.

End Py.

(** ** The host's node-group document model *)

Module Host.
Import Py.

Inductive socket_type :=
| NodeSocketGeometry | NodeSocketInt | NodeSocketFloat | NodeSocketMenu | NodeSocketBool.

Inductive direction := INPUT | OUTPUT.

(** Values the script assigns to [min_value], [max_value] and
    [default_value]. *)
Inductive pyval :=
| VInt (z : Z)
| VFloat (f : spec_float)
| VBool (b : bool).

(** One item of [node_group.interface]. An attribute the script has not
    assigned is [None]. *)
Record socket := {
  sock_name : string;
  in_out : direction;
  sock_type : socket_type;
  min_value : option pyval;
  max_value : option pyval;
  default_value : option pyval
}.

Record enum_item := {
  item_name : string;
  item_description : string
}.

Inductive node :=
| NodeGroupInput (location : Z * Z)
| NodeGroupOutput (location : Z * Z)
| GeometryNodeMenuSwitch (name label : string) (location : Z * Z)
    (data_type : string) (enum_items : list enum_item).

(** [links.new(input_node.outputs[from_socket], node.inputs[to_input])] *)
Record link := {
  from_socket : string;
  to_node : string;
  to_input : string
}.

Record node_group := {
  ng_name : string;
  interface : list socket;
  nodes : list node;
  links : list link;
  props : list (string * string)
}.

Definition new_socket_value (name : string) (io : direction) (ty : socket_type) : socket :=
  {| sock_name := name; in_out := io; sock_type := ty;
     min_value := None; max_value := None; default_value := None |}.

Definition set_min (v : pyval) (s : socket) : socket :=
  {| sock_name := sock_name s; in_out := in_out s; sock_type := sock_type s;
     min_value := Some v; max_value := max_value s; default_value := default_value s |}.

Definition set_max (v : pyval) (s : socket) : socket :=
  {| sock_name := sock_name s; in_out := in_out s; sock_type := sock_type s;
     min_value := min_value s; max_value := Some v; default_value := default_value s |}.

Definition set_default (v : pyval) (s : socket) : socket :=
  {| sock_name := sock_name s; in_out := in_out s; sock_type := sock_type s;
     min_value := min_value s; max_value := max_value s; default_value := Some v |}.

Definition with_interface (f : list socket -> list socket) (g : node_group) : node_group :=
  {| ng_name := ng_name g; interface := f (interface g); nodes := nodes g;
     links := links g; props := props g |}.

Definition with_nodes (f : list node -> list node) (g : node_group) : node_group :=
  {| ng_name := ng_name g; interface := interface g; nodes := f (nodes g);
     links := links g; props := props g |}.

Definition with_links (f : list link -> list link) (g : node_group) : node_group :=
  {| ng_name := ng_name g; interface := interface g; nodes := nodes g;
     links := f (links g); props := props g |}.

Definition with_props (f : list (string * string) -> list (string * string))
    (g : node_group) : node_group :=
  {| ng_name := ng_name g; interface := interface g; nodes := nodes g;
     links := links g; props := f (props g) |}.

(** [node_group[key] = value]: a custom property, overwritten in place
    when the key is already there. *)
Fixpoint set_prop (key value : string) (ps : list (string * string)) : list (string * string) :=
  match ps with
  | [] => [(key, value)]
  | (k, v) :: r => if String.eqb k key then (k, value) :: r else (k, v) :: set_prop key value r
  end.

(** *** Building a node group: state and exceptions

    The script mutates the node group as it goes, and an exception leaves
    what was built so far in place; a computation therefore returns the
    node group next to its outcome. *)
Definition M (A : Type) : Type := node_group -> node_group * result A.

Definition ret {A} (a : A) : M A := fun g => (g, inr a).
Definition raise {A} (e : exn) : M A := fun g => (g, inl e).
Definition bind {A B} (m : M A) (k : A -> M B) : M B :=
  fun g => match m g with
           | (g', inl e) => (g', inl e)
           | (g', inr a) => k a g'
           end.
Definition lift {A} (r : result A) : M A := fun g => (g, r).
Definition modify (f : node_group -> node_group) : M unit := fun g => (f g, inr tt).

End Host.

(** ** The schema interpreter: [create_parameter_node_group] *)

Module Interp.
Import Py Host.

Notation "'let*' x := m 'in' k" := (bind m (fun x => k))
  (at level 10, x name, m at level 100, k at level 200).
Notation "m ;; k" := (bind m (fun _ => k))
  (at level 100, k at level 200, right associativity).

(** The literal [2] of [(min_val + max_val) / 2], as a float. *)
Definition two : spec_float := Eval cbv in float_of_Z 2.

(** [f] applied to the socket created last (the script's [socket]
    variable). *)
Fixpoint update_last {A} (f : A -> A) (l : list A) : list A :=
  match l with
  | [] => []
  | [x] => [f x]
  | x :: r => x :: update_last f r
  end.

Definition new_socket (name : string) (io : direction) (ty : socket_type) : M unit :=
  modify (with_interface (fun l => l ++ [new_socket_value name io ty])).

Definition set_socket (f : socket -> socket) : M unit :=
  modify (with_interface (update_last f)).

Definition set_custom (key value : string) : M unit :=
  modify (with_props (set_prop key value)).

(** The items added to the menu switch: one per element that is a
    [str], the others passed over. *)
Fixpoint menu_items (param_name : string) (options : list json) : list enum_item :=
  match options with
  | [] => []
  | JStr option :: r =>
      {| item_name := option;
         item_description := param_name +:+ " option: " +:+ option |}
      :: menu_items param_name r
  | _ :: r => menu_items param_name r
  end.

Section WithBuiltins.
Variable B : builtins.

(** [(isinstance(min_val, int) and isinstance(max_val, int)) or
     (min_val == int(min_val) and max_val == int(max_val))],
    with Python's left-to-right short-circuit evaluation. *)
Definition are_integers (min_val max_val : json) : result bool :=
  if isinstance_int min_val && isinstance_int max_val then inr true
  else
    rbind (py_int B min_val) (fun i =>
      if py_eq_int min_val i
      then rbind (py_int B max_val) (fun j => inr (py_eq_int max_val j))
      else inr false).

Definition dict_item (d : list (string * json)) (k : string) : result json :=
  match dict_get d k with
  | Some v => inr v
  | None => inl KeyError
  end.

(** The options annotation: [",".join(str(item) for item in param_data)] *)
Definition options_string (param_data : list json) : string :=
  join "," (map (py_str B) param_data).

(** The body of the loop over [config_data["config"].items()]. *)
Definition process_param (y_offset : Z) (param_name : string) (param_data : json) : M unit :=
  match param_data with
  | JObj d =>
      if dict_has d "range" then
        let* rng := lift (dict_item d "range") in
        let* min_val := lift (getitem rng 0) in
        let* max_val := lift (getitem rng 1) in
        let* ints := lift (are_integers min_val max_val) in
        if ints : bool then
          let* min_val := lift (py_int B min_val) in
          let* max_val := lift (py_int B max_val) in
          let default_val := min_val in
          new_socket param_name INPUT NodeSocketInt ;;
          set_socket (set_min (VInt min_val)) ;;
          set_socket (set_max (VInt max_val)) ;;
          set_socket (set_default (VInt default_val))
        else
          let* min_val := lift (py_float B min_val) in
          let* max_val := lift (py_float B max_val) in
          let default_val := fdiv (fadd min_val max_val) two in
          new_socket param_name INPUT NodeSocketFloat ;;
          set_socket (set_min (VFloat min_val)) ;;
          set_socket (set_max (VFloat max_val)) ;;
          set_socket (set_default (VFloat default_val))
      else if dict_has d "count" then
        let* cnt := lift (dict_item d "count") in
        let* c0 := lift (getitem cnt 0) in
        let* min_val := lift (py_int B c0) in
        let* cnt := lift (dict_item d "count") in
        let* c1 := lift (getitem cnt 1) in
        let* max_val := lift (py_int B c1) in
        let default_val := min_val in
        new_socket param_name INPUT NodeSocketInt ;;
        set_socket (set_min (VInt min_val)) ;;
        set_socket (set_max (VInt max_val)) ;;
        set_socket (set_default (VInt default_val))
      else ret tt
  | JList l =>
      let has_strings := existsb isinstance_str l in
      if has_strings then
        new_socket param_name INPUT NodeSocketMenu ;;
        modify (with_nodes (fun ns => ns ++
          [GeometryNodeMenuSwitch ("MenuSwitch_" +:+ param_name) param_name
             (0, y_offset) "GEOMETRY" (menu_items param_name l)])) ;;
        modify (with_links (fun ls => ls ++
          [{| from_socket := param_name;
              to_node := "MenuSwitch_" +:+ param_name;
              to_input := "Menu" |}])) ;;
        set_custom ("menu_options_" +:+ param_name) (options_string l)
      else
        let has_booleans := forallb isinstance_bool l in
        if has_booleans then
          new_socket param_name INPUT NodeSocketBool ;;
          let* first := lift (getitem param_data 0) in
          match first with
          | JBool b => set_socket (set_default (VBool b))
          | _ => raise TypeError
          end ;;
          set_custom ("bool_options_" +:+ param_name) (options_string l)
        else
          new_socket param_name INPUT NodeSocketInt ;;
          set_socket (set_min (VInt 0)) ;;
          set_socket (set_max (VInt (Z.of_nat (length l) - 1))) ;;
          set_socket (set_default (VInt 0)) ;;
          set_custom ("enum_options_" +:+ param_name) (options_string l)
  | _ => ret tt
  end.

(** The loop itself; [y_offset] goes down by 50 per entry. *)
Fixpoint process_params (y_offset : Z) (items : list (string * json)) : M unit :=
  match items with
  | [] => ret tt
  | (param_name, param_data) :: r =>
      process_param y_offset param_name param_data ;;
      process_params (y_offset - 50) r
  end.

(** [config_data["config"].items()], after [len(config_data['config'])]
    in the debug message. *)
Definition config_items (config : json) : result (list (string * json)) :=
  rbind (py_len config) (fun _ =>
    match config with
    | JObj kvs => inr kvs
    | _ => inl AttributeError
    end).

(** Everything inside the [try] after the node group exists. *)
Definition build (config_data : list (string * json)) : M unit :=
  modify (with_nodes (fun ns => ns ++ [NodeGroupInput (-200, 0)])) ;;
  modify (with_nodes (fun ns => ns ++ [NodeGroupOutput (400, 0)])) ;;
  new_socket "Geometry" OUTPUT NodeSocketGeometry ;;
  if dict_has config_data "config" then
    let* config := lift (dict_item config_data "config") in
    let* items := lift (config_items config) in
    process_params 0 items
  else ret tt.

End WithBuiltins.
End Interp.

(** ** File names: [os.path.basename], [os.path.splitext], [str.replace] *)

Module Path.

(** [s.rfind(c)]: the index of the last [c] in [s], or [-1]. *)
Fixpoint rfind (c : ascii) (s : string) : Z :=
  match s with
  | EmptyString => -1
  | String a r =>
      let i := rfind c r in
      if 0 <=? i then i + 1
      else if Ascii.eqb a c then 0 else -1
  end.

(** [s[i:]] and [s[:i]] for [0 <= i] *)
Fixpoint drop (n : nat) (s : string) : string :=
  match n, s with
  | O, _ => s
  | S n', EmptyString => EmptyString
  | S n', String _ r => drop n' r
  end.

Fixpoint take (n : nat) (s : string) : string :=
  match n, s with
  | O, _ => EmptyString
  | S n', EmptyString => EmptyString
  | S n', String a r => String a (take n' r)
  end.

(** [posixpath.basename]: [i = p.rfind('/') + 1; return p[i:]] *)
Definition basename (p : string) : string :=
  drop (Z.to_nat (rfind "/" p + 1)) p.

(** Some character of [s] is not [c]. *)
Fixpoint some_other (c : ascii) (s : string) : bool :=
  match s with
  | EmptyString => false
  | String a r => negb (Ascii.eqb a c) || some_other c r
  end.

(** [posixpath.splitext(p)[0]]: the dot must come after the last
    separator and after a character of the file name that is not a dot. *)
Definition splitext_root (p : string) : string :=
  let sepIndex := rfind "/" p in
  let dotIndex := rfind "." p in
  if sepIndex <? dotIndex then
    let filenameIndex := Z.to_nat (sepIndex + 1) in
    if some_other "." (take (Z.to_nat dotIndex - filenameIndex) (drop filenameIndex p))
    then take (Z.to_nat dotIndex) p
    else p
  else p.

(** [s.startswith(old)] *)
Fixpoint startswith (old s : string) : bool :=
  match old, s with
  | EmptyString, _ => true
  | String _ _, EmptyString => false
  | String a old', String b s' => Ascii.eqb a b && startswith old' s'
  end.

(** [s.replace(old, new)] for a non-empty [old]: occurrences are found
    from the left and do not overlap. [skip] counts the characters of a
    match still to be passed over. *)
Fixpoint replace_from (old new : string) (skip : nat) (s : string) : string :=
  match s with
  | EmptyString => EmptyString
  | String a r =>
      match skip with
      | S k => replace_from old new k r
      | O =>
          if startswith old s
          then new +:+ replace_from old new (String.length old - 1) r
          else String a (replace_from old new O r)
      end
  end.

Definition replace (old new s : string) : string := replace_from old new O s.

(** The target name of [load_config_file]:
    [os.path.splitext(filename)[0].replace("_Config", "").replace("_config", "")] *)
Definition object_name (filepath : string) : string :=
  let filename := basename filepath in
  replace "_config" "" (replace "_Config" "" (splitext_root filename)).

End Path.

(** ** The host's registries and the script's entry points *)

Module Bpy.
Import Py Host Interp.

Record material := {
  mat_name : string;
  use_nodes : bool
}.

(** An object and its material slots, by material name; [None] when the
    object's data has no [materials] (an empty, a camera, a light). *)
Record object := {
  obj_name : string;
  obj_materials : option (list string)
}.

(** [bpy.data.node_groups], [bpy.data.materials] and
    [bpy.context.active_object]. Each registry holds one block per name. *)
Record bpy := {
  node_groups : gmap string node_group;
  materials : gmap string material;
  active_object : option object
}.

(** The name the host gives a new block: the one asked for when it is
    free, else the first free one among [name.001], [name.002], ...
    Names are taken as the host keeps them: not empty and within its
    length limit. *)
Definition pad3 (i : nat) : string :=
  (if (i <? 10)%nat then "00" else if (i <? 100)%nat then "0" else "") +:+ pretty i.

Fixpoint numbered_name {A} (m : gmap string A) (name : string) (i fuel : nat) : string :=
  match fuel with
  | O => name
  | S fuel' =>
      let candidate := name +:+ "." +:+ pad3 i in
      match m !! candidate with
      | None => candidate
      | Some _ => numbered_name m name (S i) fuel'
      end
  end.

Definition host_name {A} (m : gmap string A) (name : string) : string :=
  match m !! name with
  | None => name
  | Some _ => numbered_name m name 1 (S (size m))
  end.

Definition empty_group (name : string) : node_group :=
  {| ng_name := name; interface := []; nodes := []; links := []; props := [] |}.

Section WithBuiltins.
Variable B : builtins.

(** [create_parameter_node_group(config_data, object_name)], which its
    one caller gives a dict; [None] is the result of the [except] branch.
    The group is registered with whatever was built when an exception
    stopped the construction. *)
Definition create_parameter_node_group (config_data : list (string * json))
    (object_name : string) (st : bpy) : bpy * option node_group :=
  let node_group_name := object_name in
  let groups :=
    match node_groups st !! node_group_name with
    | Some _ => delete node_group_name (node_groups st)
    | None => node_groups st
    end in
  let name := host_name groups node_group_name in
  let '(node_group, outcome) := build B config_data (empty_group name) in
  let st' := {| node_groups := <[name := node_group]> groups;
                materials := materials st;
                active_object := active_object st |} in
  match outcome with
  | inr _ => (st', Some node_group)
  | inl _ => (st', None)
  end.

(** The loop of [create_simple_materials] over [parts_data.keys()]. *)
Fixpoint create_each (part_names : list string) (mats : gmap string material)
    (materials_created : list string) : gmap string material * list string :=
  match part_names with
  | [] => (mats, materials_created)
  | part_name :: r =>
      let material_name := part_name in
      match mats !! material_name with
      | Some _ => create_each r mats materials_created
      | None =>
          let name := host_name mats material_name in
          create_each r (<[name := {| mat_name := name; use_nodes := true |}]> mats)
            (materials_created ++ [material_name])
      end
  end.

(** [create_simple_materials(parts_data, object_name)]: [len] and [keys]
    of something that is not a dict raise before any material is made,
    and the [except] branch returns [[]]. *)
Definition create_simple_materials (parts_data : json) (object_name : string)
    (st : bpy) : bpy * list string :=
  match parts_data with
  | JObj kvs =>
      let '(mats, materials_created) := create_each (keys kvs) (materials st) [] in
      ({| node_groups := node_groups st; materials := mats;
          active_object := active_object st |}, materials_created)
  | _ => (st, [])
  end.

(** The loop of [assign_materials_to_object] appending to the slots. *)
Fixpoint assign_each (material_names : list string) (mats : gmap string material)
    (slots : list string) : list string :=
  match material_names with
  | [] => slots
  | mat_name :: r =>
      match mats !! mat_name with
      | Some _ => assign_each r mats (slots ++ [mat_name])
      | None => assign_each r mats slots
      end
  end.

(** [assign_materials_to_object(material_names, obj)] *)
Definition assign_materials_to_object (material_names : list string) (obj : object)
    (mats : gmap string material) : object * bool :=
  match obj_materials obj with
  | None => (obj, false)
  | Some _ =>
      let cleared : list string := [] in
      ({| obj_name := obj_name obj;
          obj_materials := Some (assign_each material_names mats cleared) |}, true)
  end.

(** What is at a path: nothing, text that is not JSON, or a document. *)
Inductive file :=
| BadJSON
| Document (config_data : json).

(** [load_config_file(filepath)]. The debug messages evaluate
    [config_data.keys()] and [len(config_data['parts'])]; when these
    raise, the outer [except] returns [None]. *)
Definition load_config_file (fs : gmap string file) (filepath : string)
    (st : bpy) : bpy * option node_group :=
  match fs !! filepath with
  | None => (st, None)
  | Some BadJSON => (st, None)
  | Some (Document (JObj config_data)) =>
      let object_name := Path.object_name filepath in
      if negb (dict_has config_data "config") then (st, None)
      else
        match create_parameter_node_group config_data object_name st with
        | (st1, None) => (st1, None)
        | (st1, Some node_group) =>
            match dict_get config_data "parts" with
            | Some parts =>
                match py_len parts with
                | inl _ => (st1, None)
                | inr _ =>
                    let '(st2, created) := create_simple_materials parts object_name st1 in
                    match created, active_object st2 with
                    | _ :: _, Some obj =>
                        let '(obj', _) :=
                          assign_materials_to_object created obj (materials st2) in
                        ({| node_groups := node_groups st2; materials := materials st2;
                            active_object := Some obj' |}, Some node_group)
                    | _, _ => (st2, Some node_group)
                    end
                end
            | None => (st1, Some node_group)
            end
        end
  | Some (Document _) => (st, None)
  end.

End WithBuiltins.
End Bpy.

(** ** The script's top level: [main] *)

Module Main.
Import Py Host Interp Bpy.

(** One modifier of the active object; [mod_node_group] names the group
    a geometry-nodes modifier runs. *)
Record modifier := {
  mod_name : string;
  mod_type : string;
  mod_node_group : option string
}.

(** The registries, and the modifier stack of the active object. *)
Record world := {
  data : bpy;
  modifiers : list modifier
}.

(** What [main] reads: the [CONFIG_PATH] variable, [sys.argv],
    [bpy.path.abspath("//")], the directories with what [os.listdir]
    returns for them, and the files. *)
Record environment := {
  CONFIG_PATH : option string;
  argv : list string;
  blend_dir : string;
  directories : gmap string (list string);
  files : gmap string file
}.

(** [argv[argv.index("--") + 1:] if "--" in argv else []] *)
Fixpoint after_dashes (argv : list string) : list string :=
  match argv with
  | [] => []
  | a :: r => if String.eqb a "--" then r else after_dashes r
  end.

(** [s.endswith(suffix)] *)
Fixpoint endswith (suffix s : string) : bool :=
  String.eqb s suffix ||
  match s with
  | EmptyString => false
  | String _ r => endswith suffix r
  end.

(** [posixpath.join(a, b)] *)
Definition join_path (a b : string) : string :=
  if Path.startswith "/" b then b
  else if String.eqb a "" || endswith "/" a then a +:+ b
  else a +:+ "/" +:+ b.

(** The filter of the directory listing. *)
Definition is_config_file (f : string) : bool :=
  endswith "_Config.json" f || endswith "_config.json" f.

(** The path [main] settles on, or [None] where it returns early. A
    [blend_dir] that does not exist, or that [os.listdir] refuses, ends
    the run like an empty one. *)
Definition config_path (env : environment) : option string :=
  match CONFIG_PATH env with
  | Some (String c p) => Some (String c p)
  | _ =>
      match after_dashes (argv env) with
      | arg :: _ => Some arg
      | [] =>
          if String.eqb (blend_dir env) "" then None
          else
            match directories env !! blend_dir env with
            | None => None
            | Some names =>
                match List.filter is_config_file names with
                | [] => None
                | [f] => Some (join_path (blend_dir env) f)
                | _ :: _ :: _ => None
                end
            end
      end
  end.

(** The loop looking for the first modifier of type ['NODES']. *)
Fixpoint find_nodes (mods : list modifier) : option nat :=
  match mods with
  | [] => None
  | m :: r =>
      if String.eqb (mod_type m) "NODES" then Some O
      else S <$> find_nodes r
  end.

Definition set_node_group (group : string) (m : modifier) : modifier :=
  {| mod_name := mod_name m; mod_type := mod_type m; mod_node_group := Some group |}.

Definition names_taken (mods : list modifier) : gmap string unit :=
  list_to_map (map (fun m => (mod_name m, tt)) mods).

(** The end of [main]: the first geometry-nodes modifier, or a new one
    named after the group, is given the group. *)
Definition attach (node_group : node_group) (mods : list modifier) : list modifier :=
  match find_nodes mods with
  | Some i => alter (set_node_group (ng_name node_group)) i mods
  | None =>
      let new := {| mod_name := host_name (names_taken mods) (ng_name node_group);
                    mod_type := "NODES";
                    mod_node_group := None |} in
      alter (set_node_group (ng_name node_group)) (length mods) (mods ++ [new])
  end.

(** Does [load_config_file] get as far as [create_parameter_node_group],
    which removes the group registered under the target name? *)
Definition compiles (fs : gmap string file) (filepath : string) : bool :=
  match fs !! filepath with
  | Some (Document (JObj config_data)) => dict_has config_data "config"
  | _ => false
  end.

(** The host clears the references to a block it removes. *)
Definition unlink (group : string) (mods : list modifier) : list modifier :=
  map (fun m =>
         match mod_node_group m with
         | Some name =>
             if String.eqb name group
             then {| mod_name := mod_name m; mod_type := mod_type m;
                     mod_node_group := None |}
             else m
         | None => m
         end) mods.

Section WithBuiltins.
Variable B : builtins.

(** [main()] *)
Definition main (env : environment) (w : world) : world :=
  match config_path env with
  | None => w
  | Some path =>
      let '(st, node_group) := load_config_file B (files env) path (data w) in
      let target := Path.object_name path in
      let mods :=
        if compiles (files env) path
        then match node_groups (data w) !! target with
             | Some _ => unlink target (modifiers w)
             | None => modifiers w
             end
        else modifiers w in
      match node_group, active_object st with
      | Some g, Some _ => {| data := st; modifiers := attach g mods |}
      | _, _ => {| data := st; modifiers := mods |}
      end
  end.

End WithBuiltins.
End Main.

(** ** The classification rules, stated on values

    The vocabulary of the properties below: what a bound is, when it is
    integral, its floor and its truncation. A finite float
    [S754_finite s m e] is the number [(-1)^s * m * 2^e]. *)

Module Spec.
Import Py Host.

(** A bound the interpreter can take: a bool, an int or a finite float. *)
Definition number (v : json) : bool :=
  match v with
  | JBool _ | JInt _ => true
  | JFloat f => is_finite f
  | _ => false
  end.

(** An int beyond the largest float has no float value; every other
    number has. *)
Definition in_float_range (v : json) : bool :=
  match v with
  | JInt z => is_finite (float_of_Z z)
  | _ => true
  end.

(** Representable as an integer: integer-typed, or a float with no
    fractional part. *)
Definition integral (v : json) : bool :=
  match v with
  | JBool _ | JInt _ => true
  | JFloat (S754_zero _) => true
  | JFloat (S754_finite _ m e) => (0 <=? e) || (Z.pos m mod 2 ^ (- e) =? 0)
  | _ => false
  end.

(** The largest integer not above [v]. *)
Definition floor_of (v : json) : Z :=
  match v with
  | JBool b => Z.b2z b
  | JInt z => z
  | JFloat (S754_finite s m e) =>
      if 0 <=? e then cond_Zopp s (Z.pos m) * 2 ^ e
      else cond_Zopp s (Z.pos m) / 2 ^ (- e)
  | _ => 0
  end.

(** Is [v] below zero? *)
Definition negative (v : json) : bool :=
  match v with
  | JInt z => z <? 0
  | JFloat (S754_finite s _ _) => s
  | _ => false
  end.

(** [-v] *)
Definition opposite (v : json) : json :=
  match v with
  | JInt z => JInt (- z)
  | JFloat f => JFloat (SFopp f)
  | _ => v
  end.

(** [v] rounded toward zero: the floor of a value that is not negative,
    the ceiling of one that is. *)
Definition trunc_of (v : json) : Z :=
  if negative v then - floor_of (opposite v) else floor_of v.

(** [v] as a float. *)
Definition as_float (v : json) : spec_float :=
  match v with
  | JBool b => float_of_Z (Z.b2z b)
  | JInt z => float_of_Z z
  | JFloat f => f
  | _ => S754_nan
  end.

(** The socket of a bounded numeric parameter. *)
Definition bounded_socket (name : string) (ty : socket_type) (mn mx d : pyval) : socket :=
  {| sock_name := name; in_out := INPUT; sock_type := ty;
     min_value := Some mn; max_value := Some mx; default_value := Some d |}.

(** The node group with one more interface socket. *)
Definition add_socket (s : socket) (g : node_group) : node_group :=
  with_interface (fun l => l ++ [s]) g.

(** The value of a finite float in units of [2^-1127], an integer for
    every binary64 number and for half of one. *)
Definition bias : Z := 1127.

Definition scaled (f : spec_float) : Z :=
  match f with
  | S754_finite s m e => cond_Zopp s (Z.pos m * 2 ^ (e + bias))
  | _ => 0
  end.

(** [x <= y] on finite floats, by their values; on binary64 numbers it
    is the order that [fleb] computes. *)
Definition float_le (x y : spec_float) : Prop :=
  is_finite x = true /\ is_finite y = true /\ scaled x <= scaled y.

(** A finite binary64 number in its canonical form. *)
Definition binary64 (f : spec_float) : Prop :=
  is_finite f = true /\ valid_binary prec emax f = true.



End Spec.

(** ** Notions used by the properties *)

Import Py Host Interp Bpy Spec.

(** *** What an entry contributes to the interface *)

(** A socket without bounds. *)
Definition plain_socket (name : string) (ty : socket_type) (d : option pyval) : socket :=
  {| sock_name := name; in_out := INPUT; sock_type := ty;
     min_value := None; max_value := None; default_value := d |}.

(** The output socket every group gets. *)
Definition geometry_socket : socket := new_socket_value "Geometry" OUTPUT NodeSocketGeometry.





(** The node group when the loop starts: the two group nodes and the
    output socket. *)
Definition seed (name : string) : node_group :=
  add_socket geometry_socket
    (with_nodes (fun ns => ns ++ [NodeGroupOutput (400, 0)])
       (with_nodes (fun ns => ns ++ [NodeGroupInput (-200, 0)]) (empty_group name))).

(** The menu switch a list entry adds. *)
Definition menu_switch (name : string) (y_offset : Z) (l : list json) : node :=
  GeometryNodeMenuSwitch ("MenuSwitch_" +:+ name) name (0, y_offset) "GEOMETRY"
    (menu_items name l).

(** Its link from the group input. *)
Definition menu_link (name : string) : link :=
  {| from_socket := name; to_node := "MenuSwitch_" +:+ name; to_input := "Menu" |}.

(** [node_group[key]] *)
Fixpoint get_prop (key : string) (ps : list (string * string)) : option string :=
  match ps with
  | [] => None
  | (k, v) :: r => if String.eqb k key then Some v else get_prop key r
  end.

(** A computation that leaves the group's name alone. *)
Definition keeps_name {A} (m : M A) : Prop :=
  forall g, ng_name (m g).1 = ng_name g.

(** *** Occurrences in strings *)



(** *** Rounding, on scaled values *)





(** *** Notions used by the further properties *)

(** Does the loop body add a socket for an entry it gets through? *)
Definition emits (v : json) : bool :=
  match v with
  | JList _ => true
  | JObj d => dict_has d "range" || dict_has d "count"
  | _ => false
  end.

(** Is the entry a list with a string in it? *)
Definition has_strings (v : json) : bool :=
  match v with
  | JList l => existsb isinstance_str l
  | _ => false
  end.

Definition is_menu (s : socket) : bool :=
  match sock_type s with
  | NodeSocketMenu => true
  | _ => false
  end.

(** The nodes, links and custom properties an entry adds. *)
Definition entry_nodes (name : string) (y_offset : Z) (v : json) : list node :=
  match v with
  | JList l => if existsb isinstance_str l then [menu_switch name y_offset l] else []
  | _ => []
  end.

Definition entry_links (name : string) (v : json) : list link :=
  if has_strings v then [menu_link name] else [].

(** The key of the options annotation of a list. *)
Definition options_key (l : list json) : string :=
  if existsb isinstance_str l then "menu_options_"
  else if forallb isinstance_bool l then "bool_options_"
  else "enum_options_".

Definition entry_props (B : builtins) (name : string) (v : json)
    (ps : list (string * string)) : list (string * string) :=
  match v with
  | JList l => set_prop (options_key l +:+ name) (options_string B l) ps
  | _ => ps
  end.

(** The menu switches of a config, each at the place of its entry. *)
Fixpoint selectors (y_offset : Z) (items : list (string * json)) : list node :=
  match items with
  | [] => []
  | (name, v) :: r => entry_nodes name y_offset v ++ selectors (y_offset - 50) r
  end.

(** The name of a menu switch; the two group nodes have none to link to. *)
Definition switch_name (n : node) : option string :=
  match n with
  | GeometryNodeMenuSwitch name _ _ _ _ => Some name
  | _ => None
  end.

(** The socket type of a list, by what the list holds. *)
Definition list_socket_type (l : list json) : socket_type :=
  if existsb isinstance_str l then NodeSocketMenu
  else if forallb isinstance_bool l then NodeSocketBool
  else NodeSocketInt.

(** A value that is no bound and that [int] and [float] refuse. *)
Definition not_a_bound (v : json) : bool :=
  match v with
  | JNull | JList _ | JObj _ => true
  | _ => false
  end.

(** A [range] or [count] value at which the loop body raises, whatever
    the builtins: not a list or string, a list shorter than two, or a
    list whose first or second element is no bound. *)
Definition malformed_bounds (r : json) : bool :=
  match r with
  | JList (lo :: hi :: _) => not_a_bound lo || not_a_bound hi
  | JList _ => true
  | JStr _ => false
  | _ => true
  end.

Definition malformed (v : json) : bool :=
  match v with
  | JObj d =>
      match dict_get d "range" with
      | Some r => malformed_bounds r
      | None =>
          match dict_get d "count" with
          | Some c => malformed_bounds c
          | None => false
          end
      end
  | JList [] => true
  | _ => false
  end.

(** The custom property a list entry leaves on the group. *)
Definition annotation (B : builtins) (kv : string * json) : option (string * string) :=
  match kv.2 with
  | JList l => Some (options_key l +:+ kv.1, options_string B l)
  | _ => None
  end.

(** Does [len] accept the value? *)
Definition sized (v : json) : bool :=
  match v with
  | JStr _ | JList _ | JObj _ => true
  | _ => false
  end.

(** The modifiers after the compile has removed the group registered
    under the target name, if there was one. *)
Definition released (target : string) (w : Main.world) : list Main.modifier :=
  match node_groups (Main.data w) !! target with
  | Some _ => Main.unlink target (Main.modifiers w)
  | None => Main.modifiers w
  end.

(** Every modifier of the stack runs a registered group, or none. *)
Definition linked (w : Main.world) : bool :=
  forallb (fun m => match Main.mod_node_group m with
                    | Some n => bool_decide (is_Some (node_groups (Main.data w) !! n))
                    | None => true
                    end)
          (Main.modifiers w).

(** A modifier after the group it ran has been removed. *)
Definition release (group : string) (m : Main.modifier) : Main.modifier :=
  match Main.mod_node_group m with
  | Some name =>
      if String.eqb name group
      then {| Main.mod_name := Main.mod_name m; Main.mod_type := Main.mod_type m;
              Main.mod_node_group := None |}
      else m
  | None => m
  end.

(** *** Sample values *)


Definition one_half : spec_float := Eval cbv in fdiv (float_of_Z 1) two.


(** A stand-in for the text builtins, for documents in which no float or
    container is printed and no string is parsed as a number. *)
Definition plain : builtins :=
  {| str_float := fun _ => "0.0"%string;
     repr_container := fun _ => "[]"%string;
     int_of_str := fun _ => None;
     float_of_str := fun _ => None |}.

(** A stand-in for the text builtins that reads the strings ["1"] and
    ["5"] as Python does, and no other. *)
Definition reads_1_and_5 : builtins :=
  {| str_float := fun _ => "0.0"%string;
     repr_container := fun _ => "[]"%string;
     int_of_str := fun s => if String.eqb s "1" then Some 1
                            else if String.eqb s "5" then Some 5 else None;
     float_of_str := fun s => if String.eqb s "1" then Some (float_of_Z 1)
                              else if String.eqb s "5" then Some (float_of_Z 5)
                              else None |}.

(** A store with one material, ["A"], and an active object holding it. *)
Definition store_with_A : bpy :=
  {| node_groups := ∅;
     materials := {[ "A"%string := {| mat_name := "A"; use_nodes := false |} ]};
     active_object := Some {| obj_name := "Cube"; obj_materials := Some ["A"%string] |} |}.

(** [{"config": {}, "parts": {"A": {}, "B": {}}}] *)
Definition doc_parts_A_B : list (string * json) :=
  [("config"%string, JObj []);
   ("parts"%string, JObj [("A"%string, JObj []); ("B"%string, JObj [])])].

(** [{"config": {}, "parts": {"A": {}}}] *)
Definition doc_parts_A : list (string * json) :=
  [("config"%string, JObj []); ("parts"%string, JObj [("A"%string, JObj [])])].

(** A file system holding one config. *)
Definition files_A_B : gmap string file :=
  {[ "models/Table_Config.json"%string := Document (JObj doc_parts_A_B) ]}.

(** The same, with the one part ["A"]. *)
Definition files_A : gmap string file :=
  {[ "models/Table_Config.json"%string := Document (JObj doc_parts_A) ]}.

(** ** Properties *)

(** *** Integers, truncation and floor *)

Lemma trunc_finite_floor_mag s m e :
  trunc_finite s m e =
  cond_Zopp s (if 0 <=? e then Z.pos m * 2 ^ e else Z.pos m / 2 ^ (- e)).
Proof.
  unfold trunc_finite. f_equal.
  destruct (Z.leb_spec 0 e).
  - now apply Z.shiftl_mul_pow2.
  - rewrite <- (Z.opp_involutive e) at 1. rewrite Z.shiftl_opp_r.
    apply Z.shiftr_div_pow2. lia.
Qed.

Lemma trunc_of_finite s m e :
  trunc_of (JFloat (S754_finite s m e)) =
  cond_Zopp s (if 0 <=? e then Z.pos m * 2 ^ e else Z.pos m / 2 ^ (- e)).
Proof.
  unfold trunc_of. destruct s; simpl; destruct (0 <=? e); simpl; lia.
Qed.

Lemma trunc_of_int z : trunc_of (JInt z) = z.
Proof.
  unfold trunc_of; simpl. destruct (Z.ltb_spec z 0); lia.
Qed.

Lemma py_int_number B v :
  number v = true -> py_int B v = inr (trunc_of v).
Proof.
  destruct v as [|b|z|f|s|l|kvs]; try discriminate; intros Hn.
  - reflexivity.
  - now rewrite trunc_of_int.
  - destruct f as [s|s| |s m e]; try discriminate.
    + reflexivity.
    + simpl. now rewrite trunc_of_finite, trunc_finite_floor_mag.
Qed.


Lemma py_eq_int_self v :
  number v = true -> py_eq_int v (trunc_of v) = integral v.
Proof.
  intros Hn. destruct v as [|b|z|f|s|l|kvs]; try discriminate.
  - apply Z.eqb_refl.
  - rewrite trunc_of_int. apply Z.eqb_refl.
  - destruct f as [s|s| |s m e]; try discriminate.
    + reflexivity.
    + rewrite trunc_of_finite. simpl.
      destruct (Z.leb_spec 0 e); simpl.
      * apply Z.eqb_refl.
      * assert (Hp : 0 < 2 ^ (- e)) by (apply Z.pow_pos_nonneg; lia).
        pose proof (Z.div_mod (Z.pos m) (2 ^ (- e)) ltac:(lia)) as Hdm.
        destruct (Z.eqb_spec (Z.pos m mod 2 ^ (- e)) 0) as [Hz|Hz].
        -- apply Z.eqb_eq. destruct s; simpl; nia.
        -- apply Z.eqb_neq. destruct s; simpl; nia.
Qed.

(** *** Running the loop body *)

Lemma update_last_app {A} (f : A -> A) (l : list A) (x : A) :
  update_last f (l ++ [x]) = l ++ [f x].
Proof.
  induction l as [|a l IH]; [reflexivity|].
  simpl. rewrite IH. destruct (l ++ [x]) eqn:E; [|reflexivity].
  destruct l; discriminate.
Qed.

Lemma dict_has_get d k v : dict_get d k = Some v -> dict_has d k = true.
Proof. unfold dict_has. now intros ->. Qed.

Lemma dict_has_none d k : dict_get d k = None -> dict_has d k = false.
Proof. unfold dict_has. now intros ->. Qed.

Lemma py_float_number B v :
  number v = true -> in_float_range v = true -> py_float B v = inr (as_float v).
Proof.
  destruct v as [|b|z|f|s|l|kvs]; try discriminate; try reflexivity.
  simpl. now intros _ ->.
Qed.

Lemma integral_int_typed v : isinstance_int v = true -> integral v = true.
Proof. now destruct v. Qed.

Lemma are_integers_number B lo hi :
  number lo = true -> number hi = true ->
  are_integers B lo hi = inr (integral lo && integral hi).
Proof.
  intros Hlo Hhi. unfold are_integers.
  destruct (isinstance_int lo && isinstance_int hi) eqn:Hty.
  - apply andb_prop in Hty as [H1 H2].
    now rewrite (integral_int_typed _ H1), (integral_int_typed _ H2).
  - rewrite (py_int_number B lo Hlo). simpl.
    rewrite (py_eq_int_self lo Hlo).
    destruct (integral lo); [|reflexivity].
    rewrite (py_int_number B hi Hhi). simpl.
    now rewrite (py_eq_int_self hi Hhi).
Qed.

(** The three assignments after [new_socket] fill in the socket just
    created. *)
Lemma new_bounded_socket name ty mn mx d g :
  (new_socket name INPUT ty ;;
   set_socket (set_min mn) ;;
   set_socket (set_max mx) ;;
   set_socket (set_default d)) g
  = (add_socket (bounded_socket name ty mn mx d) g, inr tt).
Proof.
  unfold bind, new_socket, set_socket, modify, add_socket, with_interface. simpl.
  now rewrite !update_last_app.
Qed.

(** *** Range entries *)

(** What the loop body does with a [range] entry whose bounds are
    numbers: the integer bounds are those that [int] returns. *)
Lemma process_range B y name d lo hi rest g :
  dict_get d "range" = Some (JList (lo :: hi :: rest)) ->
  number lo = true -> number hi = true ->
  in_float_range lo = true -> in_float_range hi = true ->
  process_param B y name (JObj d) g =
  (add_socket
     (if integral lo && integral hi
      then bounded_socket name NodeSocketInt
             (VInt (trunc_of lo)) (VInt (trunc_of hi)) (VInt (trunc_of lo))
      else bounded_socket name NodeSocketFloat
             (VFloat (as_float lo)) (VFloat (as_float hi))
             (VFloat (fdiv (fadd (as_float lo) (as_float hi)) two)))
     g, inr tt).
Proof.
  intros Hget Hlo Hhi Rlo Rhi. unfold process_param.
  rewrite (dict_has_get _ _ _ Hget).
  unfold bind at 1, lift at 1, dict_item. rewrite Hget.
  unfold bind at 1, lift at 1. simpl getitem. cbv iota.
  unfold bind at 1, lift at 1. simpl getitem. cbv iota.
  unfold bind at 1, lift at 1. rewrite (are_integers_number B lo hi Hlo Hhi).
  destruct (integral lo && integral hi) eqn:Hint.
  - unfold bind at 1, lift at 1. rewrite (py_int_number B lo Hlo).
    unfold bind at 1, lift at 1. rewrite (py_int_number B hi Hhi).
    now rewrite new_bounded_socket.
  - unfold bind at 1, lift at 1. rewrite (py_float_number B lo Hlo Rlo).
    unfold bind at 1, lift at 1. rewrite (py_float_number B hi Hhi Rhi).
    now rewrite new_bounded_socket.
Qed.




(** *** Count entries *)




(** *** Boolean range bounds *)

(** C10: [{"range": [false, true]}] is an Int socket with [min = 0],
    [max = 1], [default = 0]; in general boolean bounds pass the
    integer-type test and are taken as [0] and [1]. *)
Theorem boolean_range_is_int B y name b1 b2 g :
  process_param B y name (JObj [("range"%string, JList [JBool b1; JBool b2])]) g =
    (add_socket
       (bounded_socket name NodeSocketInt
          (VInt (Z.b2z b1)) (VInt (Z.b2z b2)) (VInt (Z.b2z b1)))
       g, inr tt)
  /\ process_param B y name (JObj [("range"%string, JList [JBool false; JBool true])]) g =
    (add_socket (bounded_socket name NodeSocketInt (VInt 0) (VInt 1) (VInt 0)) g, inr tt).
Proof.
  assert (H : forall c1 c2,
    process_param B y name (JObj [("range"%string, JList [JBool c1; JBool c2])]) g =
    (add_socket
       (bounded_socket name NodeSocketInt
          (VInt (Z.b2z c1)) (VInt (Z.b2z c2)) (VInt (Z.b2z c1)))
       g, inr tt)).
  { intros c1 c2.
    now rewrite (process_range B y name
                   [("range"%string, JList [JBool c1; JBool c2])]
                   (JBool c1) (JBool c2) [] g
                   eq_refl eq_refl eq_refl eq_refl eq_refl). }
  split; [apply H | apply (H false true)].
Qed.

(** *** List entries *)

Lemma process_menu B y name l g :
  existsb isinstance_str l = true ->
  process_param B y name (JList l) g =
  (with_props (set_prop ("menu_options_" +:+ name) (options_string B l))
     (with_links (fun ls => ls ++ [menu_link name])
        (with_nodes (fun ns => ns ++ [menu_switch name y l])
           (add_socket (plain_socket name NodeSocketMenu None) g))),
   inr tt).
Proof.
  intros H. unfold process_param. rewrite H. reflexivity.
Qed.

Lemma process_bools B y name b r g :
  existsb isinstance_str (JBool b :: r) = false ->
  forallb isinstance_bool (JBool b :: r) = true ->
  process_param B y name (JList (JBool b :: r)) g =
  (with_props (set_prop ("bool_options_" +:+ name) (options_string B (JBool b :: r)))
     (add_socket (plain_socket name NodeSocketBool (Some (VBool b))) g),
   inr tt).
Proof.
  intros H1 H2. unfold process_param. rewrite H1, H2.
  unfold bind, new_socket, set_socket, set_custom, modify, lift. simpl.
  unfold add_socket, with_props, with_interface. simpl.
  now rewrite update_last_app.
Qed.

(** An empty list has no string and only booleans, so the script reads
    its first element. *)
Lemma process_empty_list B y name g :
  process_param B y name (JList []) g =
  (add_socket (plain_socket name NodeSocketBool None) g, inl IndexError).
Proof. reflexivity. Qed.

Lemma process_index B y name l g :
  existsb isinstance_str l = false ->
  forallb isinstance_bool l = false ->
  process_param B y name (JList l) g =
  (with_props (set_prop ("enum_options_" +:+ name) (options_string B l))
     (add_socket
        (bounded_socket name NodeSocketInt
           (VInt 0) (VInt (Z.of_nat (length l) - 1)) (VInt 0)) g),
   inr tt).
Proof.
  intros H1 H2. unfold process_param. rewrite H1, H2.
  unfold bind, new_socket, set_socket, set_custom, modify. simpl.
  unfold add_socket, with_props, with_interface. simpl.
  now rewrite !update_last_app.
Qed.

Lemma get_set_prop key value ps : get_prop key (set_prop key value ps) = Some value.
Proof.
  induction ps as [|[k v] ps IH]; simpl.
  - now rewrite String.eqb_refl.
  - destruct (String.eqb k key) eqn:E; simpl; now rewrite E.
Qed.







(** *** The whole loop *)







(** *** The registry *)

Lemma host_name_free {A} (m : gmap string A) name :
  m !! name = None -> host_name m name = name.
Proof. unfold host_name. now intros ->. Qed.

Lemma removed_is_delete (m : gmap string node_group) name :
  match m !! name with Some _ => delete name m | None => m end = delete name m.
Proof.
  destruct (m !! name) eqn:E; [reflexivity|].
  symmetry. now apply delete_id.
Qed.

Lemma build_config B doc items name :
  dict_get doc "config" = Some (JObj items) ->
  build B doc (empty_group name) = process_params B 0 items (seed name).
Proof.
  intros H. unfold build. rewrite (dict_has_get _ _ _ H).
  unfold bind, modify, new_socket, lift, dict_item. rewrite H. reflexivity.
Qed.

(** *** The group keeps its name *)

Lemma keeps_name_ret {A} (a : A) : keeps_name (ret a).
Proof. now intros g. Qed.

Lemma keeps_name_raise {A} e : keeps_name (@raise A e).
Proof. now intros g. Qed.

Lemma keeps_name_lift {A} (r : result A) : keeps_name (lift r).
Proof. now intros g. Qed.

Lemma keeps_name_modify f :
  (forall g, ng_name (f g) = ng_name g) -> keeps_name (modify f).
Proof. intros H g. apply H. Qed.

Lemma keeps_name_bind {A C} (m : M A) (k : A -> M C) :
  keeps_name m -> (forall a, keeps_name (k a)) -> keeps_name (bind m k).
Proof.
  intros Hm Hk g. unfold bind. specialize (Hm g).
  destruct (m g) as [g1 [e|a]]; simpl in *; [exact Hm|].
  now rewrite (Hk a g1).
Qed.

Ltac keeps_name :=
  repeat first
    [ apply keeps_name_ret | apply keeps_name_raise | apply keeps_name_lift
    | apply keeps_name_modify; now intros []
    | apply keeps_name_bind; [|intros ?]
    | match goal with
      | |- keeps_name (if ?b then _ else _) => destruct b
      | |- keeps_name (match ?x with _ => _ end) => destruct x
      end ].

Lemma process_param_keeps_name B y name v : keeps_name (process_param B y name v).
Proof.
  unfold process_param, new_socket, set_socket, set_custom. keeps_name.
Qed.

Lemma process_params_keeps_name B items : forall y, keeps_name (process_params B y items).
Proof.
  induction items as [|[n v] items IH]; intros y; simpl.
  - apply keeps_name_ret.
  - apply keeps_name_bind; [apply process_param_keeps_name | intros _; apply IH].
Qed.

Lemma build_keeps_name B doc : keeps_name (build B doc).
Proof.
  unfold build, new_socket.
  repeat first
    [ apply keeps_name_ret | apply keeps_name_lift
    | apply keeps_name_modify; now intros []
    | apply process_params_keeps_name
    | apply keeps_name_bind; [|intros ?]
    | match goal with
      | |- keeps_name (if ?b then _ else _) => destruct b
      end ].
Qed.

(** The entry point in closed form: the group is built from scratch and
    takes the place of whatever the registry held under the name. *)
Lemma create_general B doc name st :
  create_parameter_node_group B doc name st =
  let out := build B doc (empty_group name) in
  ({| node_groups := <[name := out.1]> (node_groups st);
      materials := materials st;
      active_object := active_object st |},
   match out.2 with inr _ => Some out.1 | inl _ => None end).
Proof.
  unfold create_parameter_node_group.
  rewrite removed_is_delete.
  rewrite (host_name_free (delete name (node_groups st)) name)
    by apply lookup_delete_eq.
  destruct (build B doc (empty_group name)) as [g [e|[]]]; simpl;
    now rewrite insert_delete_eq.
Qed.

(** *** The interpreter on whole documents *)




(** *** Materials *)

Lemma create_each_spec names : forall (mats : gmap string material) acc,
  let out := create_each names mats acc in
  (forall n mat, mats !! n = Some mat -> out.1 !! n = Some mat)
  /\ (forall n, n ∈ names -> is_Some (out.1 !! n))
  /\ (forall n, out.1 !! n = None -> mats !! n = None).
Proof.
  induction names as [|k names IH]; intros mats acc; simpl.
  - repeat split; [auto | intros n H; inversion H | auto].
  - destruct (mats !! k) as [mat0|] eqn:Ek.
    + destruct (IH mats acc) as (Hkeep & Hall & Hnew).
      repeat split; [exact Hkeep | | exact Hnew].
      intros n Hn. apply elem_of_cons in Hn as [->|Hn]; [|now apply Hall].
      rewrite (Hkeep k mat0 Ek). now eexists.
    + rewrite (host_name_free mats k Ek).
      set (mats1 := <[k := {| mat_name := k; use_nodes := true |}]> mats).
      destruct (IH mats1 (acc ++ [k])) as (Hkeep & Hall & Hnew).
      repeat split.
      * intros n mat Hn. apply Hkeep. unfold mats1.
        rewrite lookup_insert_ne; [exact Hn | congruence].
      * intros n Hn. apply elem_of_cons in Hn as [->|Hn]; [|now apply Hall].
        erewrite Hkeep; [now eexists|]. unfold mats1. apply lookup_insert_eq.
      * intros n Hn. apply Hnew in Hn. unfold mats1 in Hn.
        apply lookup_insert_None in Hn. tauto.
Qed.

(** With every name taken, the loop creates nothing. *)
Lemma create_each_all_exist names (mats : gmap string material) acc :
  (forall n, n ∈ names -> is_Some (mats !! n)) ->
  create_each names mats acc = (mats, acc).
Proof.
  induction names as [|k names IH]; intros Hall; [reflexivity|].
  simpl. destruct (Hall k) as [mat0 ->]; [left|].
  apply IH. intros n Hn. apply Hall. now right.
Qed.

Lemma filter_free_insert (names : list string) k mat (mats : gmap string material) :
  k ∉ names ->
  filter (fun n => <[k := mat]> mats !! n = None) names
  = filter (fun n => mats !! n = None) names.
Proof.
  induction names as [|n names IH]; intros Hk; [reflexivity|].
  apply not_elem_of_cons in Hk as [Hne Hk].
  assert (Hn : <[k := mat]> mats !! n = mats !! n)
    by (apply lookup_insert_ne; congruence).
  destruct (mats !! n) eqn:En.
  - rewrite !filter_cons_False by (rewrite ?Hn, ?En; discriminate). now apply IH.
  - rewrite !filter_cons_True by (rewrite ?Hn, ?En; reflexivity).
    f_equal. now apply IH.
Qed.

(** The names created, for keys that do not repeat: those that were
    free, in the order of the keys. *)
Lemma create_each_created (names : list string) : forall (mats : gmap string material) acc,
  NoDup names ->
  (create_each names mats acc).2 = acc ++ filter (fun n => mats !! n = None) names.
Proof.
  induction names as [|k names IH]; intros mats acc Hnd; simpl.
  - now rewrite app_nil_r.
  - apply NoDup_cons in Hnd as [Hk Hnd].
    destruct (mats !! k) as [mat0|] eqn:Ek.
    + rewrite filter_cons_False by (rewrite Ek; discriminate).
      now apply IH.
    + rewrite filter_cons_True by exact Ek.
      rewrite (host_name_free mats k Ek).
      rewrite IH by exact Hnd. rewrite <- app_assoc. simpl. do 2 f_equal.
      now apply filter_free_insert.
Qed.

Lemma assign_each_all_exist names (mats : gmap string material) : forall slots,
  (forall n, n ∈ names -> is_Some (mats !! n)) ->
  assign_each names mats slots = slots ++ names.
Proof.
  induction names as [|k names IH]; intros slots Hall; simpl.
  - now rewrite app_nil_r.
  - destruct (Hall k) as [mat0 ->]; [left|].
    rewrite IH by (intros n Hn; apply Hall; now right).
    now rewrite <- app_assoc.
Qed.

(** *** Replace and skip *)


(** *** Binding materials to the active object *)

(** C2 (as the code has it): when the document compiles, [parts] is an
    object and the active object can hold materials, every key of
    [parts] names a material afterwards, and the object's slots are
    cleared and refilled with the names created in this run, in the
    order of the keys; names that existed are not among them, and with
    nothing created the slots stay as they were. *)
Theorem binder_assigns_created B fs path st doc kvs obj old st' g :
  fs !! path = Some (Document (JObj doc)) ->
  dict_get doc "parts" = Some (JObj kvs) ->
  NoDup (keys kvs) ->
  active_object st = Some obj ->
  obj_materials obj = Some old ->
  load_config_file B fs path st = (st', Some g) ->
  let created := filter (fun n => materials st !! n = None) (keys kvs) in
  (forall n, n ∈ keys kvs -> is_Some (materials st' !! n))
  /\ active_object st' =
     Some (match created with
           | [] => obj
           | _ :: _ => {| obj_name := obj_name obj; obj_materials := Some created |}
           end).
Proof.
  intros Hfs Hparts Hnd Hobj Hslots Hload created.
  unfold load_config_file in Hload. rewrite Hfs in Hload.
  destruct (negb (dict_has doc "config")); [discriminate|].
  rewrite create_general in Hload. cbv zeta in Hload.
  destruct (build B doc (empty_group (Path.object_name path))) as [g0 [e|[]]];
    simpl in Hload; [discriminate|].
  rewrite Hparts in Hload. simpl in Hload.
  pose proof (create_each_spec (keys kvs) (materials st) []) as (_ & Hall & _).
  pose proof (create_each_created (keys kvs) (materials st) [] Hnd) as Hcr.
  destruct (create_each (keys kvs) (materials st) []) as [mats2 made] eqn:E.
  simpl in Hall, Hcr. fold created in Hcr. subst made.
  rewrite Hobj in Hload.
  destruct created as [|c created'] eqn:Ec.
  - injection Hload as <- <-. simpl. split; [exact Hall | reflexivity].
  - assert (Hmade : forall n, n ∈ c :: created' -> is_Some (mats2 !! n)).
    { intros n Hn. apply Hall.
      assert (Hin : n ∈ filter (fun n => materials st !! n = None) (keys kvs))
        by (fold created; rewrite Ec; exact Hn).
      now apply list_elem_of_filter in Hin as [_ Hin]. }
    cbn [active_object materials node_groups] in Hload.
    unfold assign_materials_to_object in Hload. rewrite Hslots in Hload.
    rewrite (assign_each_all_exist (c :: created') mats2 [] Hmade) in Hload.
    injection Hload as <- <-. split; [exact Hall | reflexivity].
Qed.

(** C9: when every key of [parts] names a material that exists, the
    binder creates nothing and the run leaves the active object, its
    slots included, and the materials as they were. *)
Theorem existing_parts_leave_slots B fs path st doc kvs :
  fs !! path = Some (Document (JObj doc)) ->
  dict_get doc "parts" = Some (JObj kvs) ->
  (forall n, n ∈ keys kvs -> is_Some (materials st !! n)) ->
  (create_simple_materials (JObj kvs) (Path.object_name path) st).2 = []
  /\ active_object (load_config_file B fs path st).1 = active_object st
  /\ materials (load_config_file B fs path st).1 = materials st.
Proof.
  intros Hfs Hparts Hall. split.
  - unfold create_simple_materials.
    now rewrite (create_each_all_exist (keys kvs) (materials st) [] Hall).
  - unfold load_config_file. rewrite Hfs.
    destruct (negb (dict_has doc "config")); [now split|].
    rewrite create_general. cbv zeta.
    destruct (build B doc (empty_group (Path.object_name path))) as [g0 [e|[]]];
      simpl; [now split|].
    rewrite Hparts. simpl.
    rewrite (create_each_all_exist (keys kvs) (materials st) [] Hall).
    now split.
Qed.

Lemma binder_assigns_created_witness :
  active_object (load_config_file plain files_A_B "models/Table_Config.json" store_with_A).1
  = Some {| obj_name := "Cube"; obj_materials := Some ["B"%string] |}.
Proof.
  assert (Hnd : NoDup (keys [("A"%string, JObj []); ("B"%string, JObj [])])).
  { apply (bool_decide_unpack _). vm_compute. exact I. }
  assert (Hload :
    load_config_file plain files_A_B "models/Table_Config.json" store_with_A
    = ((load_config_file plain files_A_B "models/Table_Config.json" store_with_A).1,
       Some (seed "Table"))).
  { vm_compute. reflexivity. }
  exact (proj2 (binder_assigns_created plain files_A_B "models/Table_Config.json"
    store_with_A doc_parts_A_B [("A"%string, JObj []); ("B"%string, JObj [])]
    {| obj_name := "Cube"; obj_materials := Some ["A"%string] |} ["A"%string]
    _ (seed "Table") eq_refl eq_refl Hnd eq_refl eq_refl Hload)).
Defined.

(** C2 (as stated) fails: with parts ["A"] and ["B"], of which ["A"]
    exists, the slots end up holding ["B"] alone. *)
Lemma binder_counterexample :
  let st' := (load_config_file plain files_A_B "models/Table_Config.json" store_with_A).1 in
  keys [("A"%string, JObj []); ("B"%string, JObj [])] = ["A"; "B"]%string
  /\ (obj_materials <$> active_object st') = Some (Some ["B"%string])
  /\ (obj_materials <$> active_object st') <> Some (Some ["A"; "B"]%string).
Proof.
  vm_compute. repeat split. discriminate.
Qed.

Lemma existing_parts_leave_slots_witness :
  active_object (load_config_file plain files_A "models/Table_Config.json" store_with_A).1
  = active_object store_with_A.
Proof.
  assert (Hall : forall n, n ∈ keys [("A"%string, JObj [])] ->
                 is_Some (materials store_with_A !! n)).
  { intros n Hn. apply list_elem_of_singleton in Hn as ->.
    vm_compute. eauto. }
  exact (proj1 (proj2 (existing_parts_leave_slots plain files_A
    "models/Table_Config.json" store_with_A doc_parts_A [("A"%string, JObj [])]
    eq_refl eq_refl Hall))).
Defined.

(** *** Strings *)

Lemma append_cons x a b : String x a +:+ b = String x (a +:+ b).
Proof. reflexivity. Qed.

Lemma append_nil_l b : "" +:+ b = b.
Proof. reflexivity. Qed.

Lemma length_append a b :
  String.length (a +:+ b) = (String.length a + String.length b)%nat.
Proof.
  induction a as [|c a IH]; [reflexivity|].
  rewrite append_cons. simpl. now rewrite IH.
Qed.

Lemma append_assoc a b c : (a +:+ b) +:+ c = a +:+ b +:+ c.
Proof.
  induction a as [|x a IH]; [reflexivity|].
  rewrite !append_cons. now rewrite IH.
Qed.

Lemma rfind_lower c s : -1 <= Path.rfind c s.
Proof.
  induction s as [|a s IH]; simpl; [lia|].
  destruct (Z.leb_spec 0 (Path.rfind c s)); [lia|].
  destruct (Ascii.eqb a c); lia.
Qed.

Lemma rfind_app c a b :
  Path.rfind c (a +:+ b) =
  if 0 <=? Path.rfind c b then Z.of_nat (String.length a) + Path.rfind c b
  else Path.rfind c a.
Proof.
  induction a as [|x a IH].
  - rewrite append_nil_l. simpl.
    destruct (Z.leb_spec 0 (Path.rfind c b)); [lia|].
    pose proof (rfind_lower c b). lia.
  - rewrite append_cons. simpl Path.rfind. rewrite IH.
    simpl String.length.
    destruct (Z.leb_spec 0 (Path.rfind c b)).
    + destruct (Z.leb_spec 0 (Z.of_nat (String.length a) + Path.rfind c b)); lia.
    + reflexivity.
Qed.

Lemma drop_app_length a b : Path.drop (String.length a) (a +:+ b) = b.
Proof.
  induction a as [|x a IH]; [now destruct b|].
  rewrite append_cons. exact IH.
Qed.

Lemma take_app_length a b n :
  Path.take (String.length a + n) (a +:+ b) = a +:+ Path.take n b.
Proof.
  induction a as [|x a IH]; [reflexivity|].
  rewrite !append_cons. simpl. now rewrite IH.
Qed.


(** *** [str.replace] *)







(** *** The target name *)

Lemma drop_app_plus a b n :
  Path.drop (String.length a + n) (a +:+ b) = Path.drop n b.
Proof.
  induction a as [|x a IH]; [reflexivity|].
  rewrite append_cons. exact IH.
Qed.


Lemma basename_plain y : Path.rfind "/" y = -1 -> Path.basename y = y.
Proof. unfold Path.basename. now intros ->. Qed.

Lemma basename_in_dir dir y :
  Path.rfind "/" y = -1 -> Path.basename (dir +:+ "/" +:+ y) = y.
Proof.
  intros Hy. unfold Path.basename.
  rewrite rfind_app.
  assert (H0 : Path.rfind "/" ("/" +:+ y) = 0).
  { change ("/" +:+ y) with (String "/" y). simpl. now rewrite Hy. }
  rewrite H0. change (0 <=? 0) with true. cbv iota.
  replace (Z.to_nat (Z.of_nat (String.length dir) + 0 + 1))
    with (String.length dir + 1)%nat by lia.
  now rewrite drop_app_plus.
Qed.








(** *** Rounding in binary64 *)

Lemma fexp_eq e : fexp prec emax e = Z.max (e - 53) (-1074).
Proof. reflexivity. Qed.

Lemma digits2_pos_bounds m :
  2 ^ (Z.pos (digits2_pos m) - 1) <= Z.pos m < 2 ^ Z.pos (digits2_pos m).
Proof.
  induction m as [m IH|m IH|]; simpl digits2_pos.
  - rewrite Pos2Z.inj_succ.
    replace (Z.succ (Z.pos (digits2_pos m)) - 1) with (Z.succ (Z.pos (digits2_pos m) - 1)) by lia.
    rewrite !Z.pow_succ_r by lia. lia.
  - rewrite Pos2Z.inj_succ.
    replace (Z.succ (Z.pos (digits2_pos m)) - 1) with (Z.succ (Z.pos (digits2_pos m) - 1)) by lia.
    rewrite !Z.pow_succ_r by lia. lia.
  - simpl. lia.
Qed.





(** Shifting a mantissa right. *)



Lemma loc_of_record_exact m r s :
  loc_of_shr_record (Build_shr_record m r s) = loc_Exact <-> r = false /\ s = false.
Proof. destruct r, s; simpl; split; try discriminate; try tauto; intros [? ?]; discriminate. Qed.





(** Numbers of the format enclose a rounding. *)










(** Aligning and rounding a mantissa. *)










(** Halving. *)






(** The order of the values is the order [<=] computes on binary64
    numbers. *)
Lemma binary64_canonical s m e :
  binary64 (S754_finite s m e) ->
  -1074 <= e /\ Z.pos m < 2 ^ 53 /\ (-1074 < e -> 2 ^ 52 <= Z.pos m).
Proof.
  intros [_ Hval].
  unfold valid_binary, bounded, canonical_mantissa in Hval.
  apply andb_prop in Hval as [Hc _]. apply Z.eqb_eq in Hc.
  rewrite fexp_eq in Hc.
  destruct (digits2_pos_bounds m) as [Hl Hu].
  assert (2 ^ Z.pos (digits2_pos m) <= 2 ^ 53) by (apply Z.pow_le_mono_r; lia).
  repeat split; try lia.
  intros He. assert (Hd : Z.pos (digits2_pos m) = 53) by lia.
  rewrite Hd in Hl. exact Hl.
Qed.

Lemma canonical_lt s1 m1 e1 s2 m2 e2 :
  binary64 (S754_finite s1 m1 e1) -> binary64 (S754_finite s2 m2 e2) ->
  e1 < e2 ->
  Z.pos m1 * 2 ^ (e1 + bias) < Z.pos m2 * 2 ^ (e2 + bias).
Proof.
  intros H1 H2 He.
  destruct (binary64_canonical _ _ _ H1) as (L1 & U1 & _).
  destruct (binary64_canonical _ _ _ H2) as (L2 & _ & N2).
  specialize (N2 ltac:(lia)).
  assert (Hb : bias = 1127) by reflexivity.
  assert (P1 : 0 < 2 ^ (e1 + bias)) by (apply Z.pow_pos_nonneg; lia).
  assert (Hle : 2 ^ 53 * 2 ^ (e1 + bias) <= 2 ^ 52 * 2 ^ (e2 + bias)).
  { rewrite <- !Z.pow_add_r by lia. apply Z.pow_le_mono_r; lia. }
  assert (P2 : 0 < 2 ^ (e2 + bias)) by (apply Z.pow_pos_nonneg; lia).
  assert (Z.pos m1 * 2 ^ (e1 + bias) < 2 ^ 53 * 2 ^ (e1 + bias))
    by (apply Z.mul_lt_mono_pos_r; lia).
  assert (2 ^ 52 * 2 ^ (e2 + bias) <= Z.pos m2 * 2 ^ (e2 + bias))
    by (apply Z.mul_le_mono_nonneg_r; lia).
  lia.
Qed.

Lemma fleb_float_le x y :
  binary64 x -> binary64 y -> (fleb x y = true <-> float_le x y).
Proof.
  intros Hx Hy. unfold float_le.
  destruct Hx as [Fx Vx], Hy as [Fy Vy].
  assert (Hb : bias = 1127) by reflexivity.
  destruct x as [sx|sx| |sx mx ex]; try discriminate;
  destruct y as [sy|sy| |sy my ey]; try discriminate;
    unfold fleb, SFleb, SFcompare, scaled.
  - split; [intros _; repeat split; lia | reflexivity].
  - assert (0 < Z.pos my * 2 ^ (ey + bias)).
    { destruct (binary64_canonical sy my ey (conj Fy Vy)) as (L & _).
      assert (0 < 2 ^ (ey + bias)) by (apply Z.pow_pos_nonneg; lia). nia. }
    destruct sy; unfold cond_Zopp; split; try discriminate;
      try (intros _; repeat split; lia); try reflexivity.
    intros (_ & _ & Hle). lia.
  - assert (0 < Z.pos mx * 2 ^ (ex + bias)).
    { destruct (binary64_canonical sx mx ex (conj Fx Vx)) as (L & _).
      assert (0 < 2 ^ (ex + bias)) by (apply Z.pow_pos_nonneg; lia). nia. }
    destruct sx; unfold cond_Zopp; split; try discriminate;
      try (intros _; repeat split; lia); try reflexivity.
    intros (_ & _ & Hle). lia.
  - destruct (binary64_canonical sx mx ex (conj Fx Vx)) as (Lx & _).
    destruct (binary64_canonical sy my ey (conj Fy Vy)) as (Ly & _).
    assert (Px : 0 < Z.pos mx * 2 ^ (ex + bias))
      by (assert (0 < 2 ^ (ex + bias)) by (apply Z.pow_pos_nonneg; lia); nia).
    assert (Py : 0 < Z.pos my * 2 ^ (ey + bias))
      by (assert (0 < 2 ^ (ey + bias)) by (apply Z.pow_pos_nonneg; lia); nia).
    assert (Hlt : ex < ey -> Z.pos mx * 2 ^ (ex + bias) < Z.pos my * 2 ^ (ey + bias))
      by (apply (canonical_lt sx mx ex sy my ey); split; assumption).
    assert (Hgt : ey < ex -> Z.pos my * 2 ^ (ey + bias) < Z.pos mx * 2 ^ (ex + bias))
      by (apply (canonical_lt sy my ey sx mx ex); split; assumption).
    assert (Heq : ex = ey ->
      (Z.pos mx * 2 ^ (ex + bias) <= Z.pos my * 2 ^ (ey + bias) <-> (mx <= my)%positive)
      /\ (Z.pos my * 2 ^ (ey + bias) <= Z.pos mx * 2 ^ (ex + bias) <-> (my <= mx)%positive)).
    { intros ->. assert (0 < 2 ^ (ey + bias)) by (apply Z.pow_pos_nonneg; lia).
      split; split; intros Hm; nia. }
    change (Pos.compare_cont Eq mx my) with (mx ?= my)%positive.
    destruct sx, sy; unfold cond_Zopp.
    + destruct (Z.compare_spec ex ey) as [E|E|E].
      * destruct (Heq E) as [_ H2].
        destruct (Pos.compare_spec mx my) as [M|M|M]; simpl;
          split; try discriminate; try (intros _; repeat split; lia);
          try reflexivity; intros (_ & _ & Hle); lia.
      * specialize (Hlt E). split; [discriminate|]. intros (_ & _ & Hle). lia.
      * specialize (Hgt E). split; [intros _; repeat split; lia | reflexivity].
    + split; [intros _; repeat split; lia | reflexivity].
    + split; [discriminate|]. intros (_ & _ & Hle). lia.
    + destruct (Z.compare_spec ex ey) as [E|E|E].
      * destruct (Heq E) as [H1 _].
        destruct (Pos.compare_spec mx my) as [M|M|M]; simpl;
          split; try discriminate; try (intros _; repeat split; lia);
          try reflexivity; intros (_ & _ & Hle); lia.
      * specialize (Hlt E). split; [intros _; repeat split; lia | reflexivity].
      * specialize (Hgt E). split; [discriminate|]. intros (_ & _ & Hle). lia.
Qed.

(** *** Bounds of the descriptors *)

Ltac run_lift H :=
  unfold bind at 1, lift at 1 in H; cbv beta iota in H;
  try lazymatch type of H with
  | match ?r with inl e => @?f e | inr a => @?k a end = _ =>
      destruct r; [discriminate H|]
  end.






(** ** Further properties *)

Import Main.

(** *** What every pass of the loop body leaves *)

(** An object entry the loop body gets through adds one bounded Int or
    Float socket when it has a [range] or [count], and nothing else. *)
Lemma process_object_shape B y name d g g' :
  process_param B y name (JObj d) g = (g', inr tt) ->
  if dict_has d "range" || dict_has d "count"
  then exists ty mn mx dv,
         (ty = NodeSocketInt \/ ty = NodeSocketFloat)
         /\ g' = add_socket (bounded_socket name ty mn mx dv) g
  else g' = g.
Proof.
  intros H. unfold process_param in H.
  destruct (dict_has d "range"); simpl orb.
  - do 4 run_lift H.
    match type of H with context [if ?b then _ else _] => destruct b end.
    + do 2 run_lift H. rewrite new_bounded_socket in H. injection H as <-.
      exists NodeSocketInt. eexists _, _, _. split; [now left|reflexivity].
    + do 2 run_lift H. rewrite new_bounded_socket in H. injection H as <-.
      exists NodeSocketFloat. eexists _, _, _. split; [now right|reflexivity].
  - destruct (dict_has d "count").
    + do 6 run_lift H. rewrite new_bounded_socket in H. injection H as <-.
      exists NodeSocketInt. eexists _, _, _. split; [now left|reflexivity].
    + now injection H as <-.
Qed.

(** The fields of the group after a pass the loop body gets through. *)
Lemma process_fields B y name v g g' :
  process_param B y name v g = (g', inr tt) ->
  (exists news,
     interface g' = interface g ++ news
     /\ (if emits v
         then exists s, news = [s] /\ sock_name s = name /\ in_out s = INPUT
                        /\ is_menu s = has_strings v
         else news = []))
  /\ nodes g' = nodes g ++ entry_nodes name y v
  /\ links g' = links g ++ entry_links name v
  /\ props g' = entry_props B name v (props g).
Proof.
  intros H.
  destruct v as [|b|z|f|s0|l|d];
    try (injection H as <-; simpl; rewrite !app_nil_r; split; [exists []; now rewrite app_nil_r|now repeat split]).
  - (* a list *)
    destruct l as [|x l]; [rewrite process_empty_list in H; discriminate|].
    unfold entry_nodes, entry_links, entry_props, options_key, emits, has_strings.
    destruct (existsb isinstance_str (x :: l)) eqn:Hs.
    + rewrite (process_menu B y name _ g Hs) in H. injection H as <-. simpl.
      split; [|now repeat split].
      eexists. split; [reflexivity|]. eexists. now repeat split.
    + destruct (forallb isinstance_bool (x :: l)) eqn:Hb.
      * destruct x; try discriminate.
        rewrite (process_bools B y name _ _ g Hs Hb) in H. injection H as <-. simpl.
        rewrite !app_nil_r. split; [|now repeat split].
        eexists. split; [reflexivity|]. eexists. now repeat split.
      * rewrite (process_index B y name _ g Hs Hb) in H. injection H as <-. simpl.
        rewrite !app_nil_r. split; [|now repeat split].
        eexists. split; [reflexivity|]. eexists. now repeat split.
  - (* an object *)
    pose proof (process_object_shape B y name d g g' H) as Hshape.
    unfold emits, entry_nodes, entry_links, entry_props, has_strings.
    destruct (dict_has d "range" || dict_has d "count").
    + destruct Hshape as (ty & mn & mx & dv & Hty & ->). simpl.
      rewrite !app_nil_r. split; [|now repeat split].
      eexists. split; [reflexivity|]. eexists. split; [reflexivity|].
      repeat split. unfold is_menu. simpl. now destruct Hty as [-> | ->].
    + subst g'. rewrite !app_nil_r. split; [|now repeat split].
      exists []. now rewrite app_nil_r.
Qed.

Lemma process_params_cons B y n v r g :
  process_params B y ((n, v) :: r) g =
  match process_param B y n v g with
  | (g1, inl e) => (g1, inl e)
  | (g1, inr _) => process_params B (y - 50) r g1
  end.
Proof.
  simpl process_params. unfold bind at 1.
  destruct (process_param B y n v g) as [g1 [e|[]]]; reflexivity.
Qed.

(** The fields of the group after a loop that gets through its items. *)
Lemma process_params_fields B items : forall y g g',
  process_params B y items g = (g', inr tt) ->
  (exists news,
     interface g' = interface g ++ news
     /\ map sock_name news = map fst (List.filter (fun kv => emits kv.2) items)
     /\ Forall (fun s => in_out s = INPUT) news
     /\ map sock_name (List.filter is_menu news)
        = map fst (List.filter (fun kv => has_strings kv.2) items))
  /\ nodes g' = nodes g ++ selectors y items
  /\ links g' = links g
                ++ map menu_link (map fst (List.filter (fun kv => has_strings kv.2) items))
  /\ props g' = fold_left (fun ps kv => entry_props B kv.1 kv.2 ps) items (props g).
Proof.
  induction items as [|[n v] r IH]; intros y g g' H.
  - injection H as <-. simpl. rewrite !app_nil_r.
    split; [|now repeat split]. exists []. rewrite app_nil_r. now repeat split.
  - rewrite process_params_cons in H.
    destruct (process_param B y n v g) as [g1 [e|[]]] eqn:H1; [discriminate|].
    apply process_fields in H1 as [(news1 & Hi1 & Hn1) (Hnd1 & Hl1 & Hp1)].
    apply IH in H as [(news & Hi & Hn & Hd & Hm) (Hnd & Hl & Hp)].
    split; [|split; [|split]].
    + exists (news1 ++ news). rewrite Hi, Hi1, app_assoc. split; [reflexivity|].
      simpl List.filter. cbn [snd]. unfold has_strings at 2. fold (has_strings v).
      destruct (emits v) eqn:He.
      * destruct Hn1 as (s & -> & Hs & Hio & Hmenu). simpl.
        rewrite Hn, Hs. split; [reflexivity|]. split; [now constructor|].
        rewrite Hmenu. destruct (has_strings v); simpl; now rewrite Hm, ?Hs.
      * subst news1. simpl. split; [exact Hn|]. split; [exact Hd|].
        assert (has_strings v = false) as ->; [|exact Hm].
        destruct v; try reflexivity; discriminate.
    + rewrite Hnd, Hnd1. simpl. now rewrite app_assoc.
    + rewrite Hl, Hl1. simpl List.filter. cbn [snd]. unfold entry_links.
      destruct (has_strings v); simpl; rewrite <- app_assoc; reflexivity.
    + rewrite Hp, Hp1. reflexivity.
Qed.


(** A compile that returns a group ran the loop to its end. *)
Lemma compile_success B doc items name st g :
  dict_get doc "config" = Some (JObj items) ->
  (create_parameter_node_group B doc name st).2 = Some g ->
  process_params B 0 items (seed name) = (g, inr tt).
Proof.
  intros Hc H. rewrite create_general, (build_config B doc items name Hc) in H.
  simpl in H.
  destruct (process_params B 0 items (seed name)) as [g1 [e|[]]]; simpl in H;
    [discriminate|]. now injection H as <-.
Qed.

(** X1: whenever the compile returns a group, its interface is the
    Geometry output followed by one input socket for each entry that is a
    list or an object with a [range] or [count] key, in the order of the
    entries and named by their keys; entries of any other kind add
    nothing, and the Menu sockets are those of the lists that hold a
    string. *)
Theorem compiled_sockets_follow_entries B doc items name st g :
  dict_get doc "config" = Some (JObj items) ->
  (create_parameter_node_group B doc name st).2 = Some g ->
  map sock_name (interface g)
  = "Geometry" :: map fst (List.filter (fun kv => emits kv.2) items)
  /\ map in_out (interface g)
     = OUTPUT :: map (fun _ => INPUT) (List.filter (fun kv => emits kv.2) items)
  /\ map sock_name (List.filter is_menu (interface g))
     = map fst (List.filter (fun kv => has_strings kv.2) items).
Proof.
  intros Hc H. apply (compile_success B doc items name st g Hc) in H.
  apply process_params_fields in H as [(news & Hi & Hn & Hd & Hm) _].
  rewrite Hi. change (interface (seed name)) with [geometry_socket].
  assert (map in_out news = map (fun _ => INPUT) (map sock_name news)) as Hio.
  { clear -Hd. induction Hd as [|s r Hs _ IH]; simpl; [reflexivity|].
    now rewrite Hs, IH. }
  simpl. rewrite Hio, Hn, Hm, map_map. repeat split.
Qed.

Lemma compiled_sockets_follow_entries_witness :
  let doc := [("config",
               JObj [("Style", JList [JStr "flat"; JStr "round"]);
                     ("Note", JStr "free text");
                     ("Width", JObj [("range", JList [JInt 1; JInt 4])]);
                     ("Holes", JObj [("count", JList [JInt 0; JInt 3])]);
                     ("Lid", JList [JBool true; JBool false])])] in
  let g := default (empty_group "")
             (create_parameter_node_group plain doc "Box" store_with_A).2 in
  map sock_name (interface g) = ["Geometry"; "Style"; "Width"; "Holes"; "Lid"]
  /\ map in_out (interface g) = [OUTPUT; INPUT; INPUT; INPUT; INPUT]
  /\ map sock_name (List.filter is_menu (interface g)) = ["Style"].
Proof.
  intros doc g.
  exact (compiled_sockets_follow_entries plain doc _ "Box" store_with_A g
           eq_refl eq_refl).
Defined.


(** *** Menu switches: wiring and layout *)

Lemma selectors_names y items :
  omap switch_name (selectors y items)
  = map (fun kv => "MenuSwitch_" +:+ kv.1)
        (List.filter (fun kv => has_strings kv.2) items).
Proof.
  revert y. induction items as [|[n v] r IH]; intros y; [reflexivity|].
  simpl selectors. rewrite omap_app, IH. simpl List.filter. cbn [snd].
  destruct v as [| | | | |l|]; try reflexivity.
  simpl. destruct (existsb isinstance_str l); reflexivity.
Qed.

(** X2: in a compiled group the links, the menu switches and the Menu
    sockets correspond one to one and in the same order: the nodes are
    the two group nodes followed by one menu switch per Menu socket, and
    the i-th link leads from the i-th Menu socket to the [Menu] input of
    the i-th menu switch. *)
Theorem compiled_wiring B doc items name st g :
  dict_get doc "config" = Some (JObj items) ->
  (create_parameter_node_group B doc name st).2 = Some g ->
  let menus := map sock_name (List.filter is_menu (interface g)) in
  nodes g = NodeGroupInput (-200, 0) :: NodeGroupOutput (400, 0) :: selectors 0 items
  /\ omap switch_name (nodes g) = map (fun n => "MenuSwitch_" +:+ n) menus
  /\ links g = map menu_link menus
  /\ map to_node (links g) = omap switch_name (nodes g).
Proof.
  intros Hc H menus. apply (compile_success B doc items name st g Hc) in H.
  apply process_params_fields in H as [(news & Hi & _ & _ & Hm) (Hn & Hl & _)].
  change (nodes (seed name))
    with [NodeGroupInput (-200, 0); NodeGroupOutput (400, 0)] in Hn.
  change (links (seed name)) with (@nil link) in Hl.
  assert (menus = map fst (List.filter (fun kv => has_strings kv.2) items)) as ->.
  { unfold menus. rewrite Hi. change (interface (seed name)) with [geometry_socket].
    simpl. exact Hm. }
  rewrite Hn, Hl. simpl. rewrite selectors_names, !map_map.
  repeat split.
Qed.

Lemma compiled_wiring_witness :
  let doc := [("config",
               JObj [("Style", JList [JStr "flat"; JStr "round"]);
                     ("Width", JObj [("range", JList [JInt 1; JInt 4])]);
                     ("Finish", JList [JStr "matte"; JInt 2])])] in
  let g := default (empty_group "")
             (create_parameter_node_group plain doc "Box" store_with_A).2 in
  omap switch_name (nodes g) = ["MenuSwitch_Style"; "MenuSwitch_Finish"]
  /\ links g = [menu_link "Style"; menu_link "Finish"].
Proof.
  intros doc g.
  destruct (compiled_wiring plain doc _ "Box" store_with_A g eq_refl eq_refl)
    as (_ & Hs & Hl & _).
  split; [exact Hs|exact Hl].
Defined.

Lemma selectors_lookup items : forall y (i : nat) n v,
  items !! i = Some (n, v) ->
  forall nd, nd ∈ entry_nodes n (y - 50 * Z.of_nat i) v -> nd ∈ selectors y items.
Proof.
  induction items as [|[n0 v0] r IH]; intros y i n v Hi nd Hnd; [discriminate|].
  simpl selectors. apply elem_of_app. destruct i as [|i].
  - injection Hi as -> ->. left. now replace (y - 50 * Z.of_nat 0) with y in Hnd by lia.
  - right. apply (IH (y - 50) i n v Hi).
    now replace (y - 50 - 50 * Z.of_nat i) with (y - 50 * Z.of_nat (S i)) by lia.
Qed.

Lemma selectors_elem items : forall y nd,
  nd ∈ selectors y items ->
  exists (i : nat) n v, items !! i = Some (n, v)
                        /\ nd ∈ entry_nodes n (y - 50 * Z.of_nat i) v.
Proof.
  induction items as [|[n0 v0] r IH]; intros y nd H.
  - now apply elem_of_nil in H.
  - simpl selectors in H. apply elem_of_app in H as [H|H].
    + exists O, n0, v0. split; [reflexivity|].
      now replace (y - 50 * Z.of_nat 0) with y by lia.
    + apply IH in H as (i & n & v & Hi & Hnd). exists (S i), n, v.
      split; [exact Hi|].
      now replace (y - 50 * Z.of_nat (S i)) with (y - 50 - 50 * Z.of_nat i) by lia.
Qed.

(** X3: the menu switch of an entry sits 50 units lower for every entry
    before it, whatever those entries are (skipped ones count as well):
    the string list at position [i] of the config has its switch at
    [(0, -50 * i)], and every switch of the group is placed that way. *)
Theorem switch_placed_by_position B doc items name st g :
  dict_get doc "config" = Some (JObj items) ->
  (create_parameter_node_group B doc name st).2 = Some g ->
  (forall (i : nat) n l,
     items !! i = Some (n, JList l) ->
     existsb isinstance_str l = true ->
     GeometryNodeMenuSwitch ("MenuSwitch_" +:+ n) n (0, -50 * Z.of_nat i)
       "GEOMETRY" (menu_items n l) ∈ nodes g)
  /\ (forall nm lbl x y dt its,
        GeometryNodeMenuSwitch nm lbl (x, y) dt its ∈ nodes g ->
        exists (i : nat) l,
          items !! i = Some (lbl, JList l) /\ x = 0 /\ y = -50 * Z.of_nat i).
Proof.
  intros Hc H. apply (compile_success B doc items name st g Hc) in H.
  apply process_params_fields in H as (_ & Hn & _).
  change (nodes (seed name))
    with [NodeGroupInput (-200, 0); NodeGroupOutput (400, 0)] in Hn.
  rewrite Hn. split.
  - intros i n l Hi Hs. apply elem_of_app. right.
    apply (selectors_lookup items 0 i n (JList l) Hi).
    simpl. rewrite Hs. apply list_elem_of_singleton. unfold menu_switch.
    now replace (0 - 50 * Z.of_nat i) with (-50 * Z.of_nat i) by lia.
  - intros nm lbl x y dt its Hin. apply elem_of_app in Hin as [Hin|Hin].
    + apply elem_of_cons in Hin as [Hin|Hin]; [discriminate|].
      apply list_elem_of_singleton in Hin. discriminate.
    + apply selectors_elem in Hin as (i & n & v & Hi & Hnd).
      destruct v as [| | | | |l|]; try (now apply elem_of_nil in Hnd).
      simpl in Hnd. destruct (existsb isinstance_str l); [|now apply elem_of_nil in Hnd].
      apply list_elem_of_singleton in Hnd. unfold menu_switch in Hnd.
      injection Hnd as -> -> -> -> -> ->. exists i, l. repeat split; [exact Hi|lia].
Qed.

Lemma switch_placed_by_position_witness :
  let doc := [("config",
               JObj [("Note", JStr "free text");
                     ("Width", JObj [("range", JList [JInt 1; JInt 4])]);
                     ("Style", JList [JStr "flat"; JStr "round"])])] in
  let g := default (empty_group "")
             (create_parameter_node_group plain doc "Box" store_with_A).2 in
  GeometryNodeMenuSwitch "MenuSwitch_Style" "Style" (0, -100) "GEOMETRY"
    (menu_items "Style" [JStr "flat"; JStr "round"]) ∈ nodes g.
Proof.
  intros doc g.
  exact (proj1 (switch_placed_by_position plain doc _ "Box" store_with_A g
                  eq_refl eq_refl)
           2%nat "Style" [JStr "flat"; JStr "round"] eq_refl eq_refl).
Defined.


(** *** The options annotations *)

Lemma get_set_prop_ne k key value ps :
  k <> key -> get_prop key (set_prop k value ps) = get_prop key ps.
Proof.
  intros Hne. induction ps as [|[k0 v0] r IH]; simpl.
  - now apply String.eqb_neq in Hne as ->.
  - destruct (String.eqb k0 k) eqn:E; simpl.
    + apply String.eqb_eq in E as ->. now apply String.eqb_neq in Hne as ->.
    + now rewrite IH.
Qed.

Lemma set_prop_fresh key value ps :
  key ∉ map fst ps -> set_prop key value ps = ps ++ [(key, value)].
Proof.
  induction ps as [|[k0 v0] r IH]; intros Hf; [reflexivity|].
  simpl in Hf. apply not_elem_of_cons in Hf as [Hne Hf]. simpl.
  assert (String.eqb k0 key = false) as -> by (apply String.eqb_neq; congruence).
  now rewrite IH.
Qed.

(** The three prefixes have the same length, so the key tells the name. *)
Lemma options_key_inj l1 n1 l2 n2 :
  options_key l1 +:+ n1 = options_key l2 +:+ n2 -> n1 = n2.
Proof.
  unfold options_key.
  destruct (existsb isinstance_str l1), (forallb isinstance_bool l1),
    (existsb isinstance_str l2), (forallb isinstance_bool l2);
    rewrite !append_cons, !append_nil_l; intros H; now inversion H.
Qed.

Lemma fold_annotations B items : forall ps,
  NoDup (map fst items) ->
  (forall n v, (n, v) ∈ items -> forall l, options_key l +:+ n ∉ map fst ps) ->
  fold_left (fun ps kv => entry_props B kv.1 kv.2 ps) items ps
  = ps ++ omap (annotation B) items.
Proof.
  induction items as [|[n v] r IH]; intros ps Hnd Hf.
  - simpl. now rewrite app_nil_r.
  - simpl in Hnd. apply NoDup_cons in Hnd as [Hn Hnd].
    assert (forall n' v', (n', v') ∈ r -> n' <> n) as Hother.
    { intros n' v' Hin ->. apply Hn. apply list_elem_of_fmap.
      exists (n, v'). split; [reflexivity|exact Hin]. }
    simpl fold_left. simpl omap. unfold entry_props, annotation at 1. cbn [fst snd].
    destruct v as [| | | | |l|];
      try (apply IH; [exact Hnd|]; intros n' v' Hin; apply (Hf n' v'); now right).
    rewrite set_prop_fresh by (apply (Hf n (JList l)); now left).
    rewrite IH; [now rewrite <- app_assoc|exact Hnd|].
    intros n' v' Hin l'. rewrite map_app. intros Hk.
    apply elem_of_app in Hk as [Hk|Hk].
    + revert Hk. apply (Hf n' v'). now right.
    + apply list_elem_of_singleton in Hk. simpl in Hk.
      apply options_key_inj in Hk. exact (Hother n' v' Hin Hk).
Qed.

Lemma get_annotation B items : forall n l,
  NoDup (map fst items) -> (n, JList l) ∈ items ->
  get_prop (options_key l +:+ n) (omap (annotation B) items)
  = Some (options_string B l).
Proof.
  induction items as [|[n0 v0] r IH]; intros n l Hnd Hin.
  - now apply elem_of_nil in Hin.
  - simpl in Hnd. apply NoDup_cons in Hnd as [Hn Hnd].
    apply elem_of_cons in Hin as [Hin|Hin].
    + injection Hin as <- <-. simpl. unfold annotation at 1. simpl.
      now rewrite String.eqb_refl.
    + assert (n <> n0) as Hne.
      { intros ->. apply Hn. apply list_elem_of_fmap.
        exists (n0, JList l). split; [reflexivity|exact Hin]. }
      simpl omap. unfold annotation at 1. cbn [fst snd].
      destruct v0 as [| | | | |l0|]; try (now apply IH).
      simpl. destruct (String.eqb_spec (options_key l0 +:+ n0) (options_key l +:+ n)) as [E|_].
      * apply options_key_inj in E. congruence.
      * now apply IH.
Qed.

(** X4: with distinct keys (as a parsed JSON object has them) the custom
    properties of a compiled group are exactly the annotations of its
    list entries, in order: key [menu_options_], [bool_options_] or
    [enum_options_] followed by the entry's name, value the elements'
    [str] joined by commas; so each list entry's options can be read
    back under its own key. *)
Theorem compiled_annotations B doc items name st g :
  dict_get doc "config" = Some (JObj items) ->
  NoDup (map fst items) ->
  (create_parameter_node_group B doc name st).2 = Some g ->
  props g = omap (annotation B) items
  /\ forall n l, (n, JList l) ∈ items ->
       get_prop (options_key l +:+ n) (props g)
       = Some (join "," (map (py_str B) l)).
Proof.
  intros Hc Hnd H. apply (compile_success B doc items name st g Hc) in H.
  apply process_params_fields in H as (_ & _ & _ & Hp).
  change (props (seed name)) with (@nil (string * string)) in Hp.
  rewrite fold_annotations in Hp;
    [|exact Hnd|intros n v _ l Hk; now apply elem_of_nil in Hk].
  simpl in Hp. rewrite Hp. split; [reflexivity|].
  intros n l Hin. now apply get_annotation.
Qed.

Lemma compiled_annotations_witness :
  let doc := [("config",
               JObj [("Style", JList [JStr "flat"; JStr "round"]);
                     ("Width", JObj [("range", JList [JInt 1; JInt 4])]);
                     ("Lid", JList [JBool true; JBool false]);
                     ("Size", JList [JInt 3; JInt 5])])] in
  let g := default (empty_group "")
             (create_parameter_node_group plain doc "Box" store_with_A).2 in
  props g = [("menu_options_Style", "flat,round");
             ("bool_options_Lid", "True,False");
             ("enum_options_Size", "3,5")].
Proof.
  intros doc g.
  refine (proj1 (compiled_annotations plain doc _ "Box" store_with_A g
                   eq_refl _ eq_refl)).
  apply (bool_decide_unpack _). vm_compute. exact I.
Defined.


(** *** Entries at which the loop body raises *)

Ltac raise_cases :=
  repeat match goal with
         | |- exists g e, (_, inl _) = (g, inl e) => eexists _, _; reflexivity
         | |- context [match ?x with _ => _ end] => destruct x
         | |- context [if ?x then _ else _] => destruct x
         end.

Lemma malformed_range_raises B y name d r g :
  dict_get d "range" = Some r -> malformed_bounds r = true ->
  exists g' e, process_param B y name (JObj d) g = (g', inl e).
Proof.
  intros Hr Hm. unfold process_param. rewrite (dict_has_get _ _ _ Hr).
  unfold bind at 1, lift at 1, dict_item. rewrite Hr.
  destruct r as [| | | |s|[|lo [|hi rest]]|]; try discriminate Hm;
    try (eexists _, _; reflexivity).
  simpl in Hm. unfold bind, lift, getitem. simpl.
  unfold are_integers.
  destruct lo, hi; try discriminate Hm; simpl; unfold rbind; raise_cases.
Qed.

Lemma malformed_count_raises B y name d c g :
  dict_get d "range" = None -> dict_get d "count" = Some c ->
  malformed_bounds c = true ->
  exists g' e, process_param B y name (JObj d) g = (g', inl e).
Proof.
  intros Hr Hc Hm. unfold process_param.
  rewrite (dict_has_none _ _ Hr), (dict_has_get _ _ _ Hc).
  unfold bind, lift, dict_item. rewrite Hc.
  destruct c as [| | | |s|[|c0 [|c1 rest]]|]; try discriminate Hm;
    try (eexists _, _; reflexivity).
  - simpl. destruct (py_int B c0); eexists _, _; reflexivity.
  - simpl in Hm. simpl.
    destruct c0, c1; try discriminate Hm; simpl; raise_cases.
Qed.

Lemma malformed_raises B y name v g :
  malformed v = true ->
  exists g' e, process_param B y name v g = (g', inl e).
Proof.
  intros Hm. destruct v as [| | | | |l|d]; try discriminate Hm.
  - destruct l; [|discriminate Hm]. rewrite process_empty_list. eauto.
  - simpl in Hm. destruct (dict_get d "range") as [r|] eqn:Hr.
    + now apply (malformed_range_raises B y name d r).
    + destruct (dict_get d "count") as [c|] eqn:Hc; [|discriminate Hm].
      now apply (malformed_count_raises B y name d c).
Qed.

Lemma process_params_raises B items : forall y g n v,
  (n, v) ∈ items -> malformed v = true ->
  exists g' e, process_params B y items g = (g', inl e).
Proof.
  induction items as [|[n0 v0] r IH]; intros y g n v Hin Hm.
  - now apply elem_of_nil in Hin.
  - rewrite process_params_cons.
    destruct (process_param B y n0 v0 g) as [g1 [e|[]]] eqn:H1; [eauto|].
    apply elem_of_cons in Hin as [Hin|Hin].
    + injection Hin as <- <-.
      destruct (malformed_raises B y n v g Hm) as (g' & e & E). congruence.
    + exact (IH (y - 50) g1 n v Hin Hm).
Qed.

(** X5: one malformed entry anywhere in the config makes the whole
    compile fail, whatever the other entries and the text conversions
    are: an empty list, or a [range] (or, without [range], a [count])
    that is no list or string, has fewer than two elements, or has
    [null], a list or an object as its first or second element. *)
Theorem malformed_entry_fails_compile B doc items name st n v :
  dict_get doc "config" = Some (JObj items) ->
  (n, v) ∈ items ->
  malformed v = true ->
  (create_parameter_node_group B doc name st).2 = None.
Proof.
  intros Hc Hin Hm.
  rewrite create_general, (build_config B doc items name Hc). simpl.
  destruct (process_params_raises B items 0 (seed name) n v Hin Hm) as (g' & e & ->).
  reflexivity.
Qed.

Lemma malformed_entry_fails_compile_witness :
  let items := [("Width", JObj [("range", JList [JInt 1; JInt 4])]);
                ("Depth", JObj [("range", JList [JFloat one_half; JNull])]);
                ("Style", JList [JStr "flat"; JStr "round"])] in
  (create_parameter_node_group plain [("config", JObj items)] "Box" store_with_A).2
  = None.
Proof.
  intros items.
  apply (malformed_entry_fails_compile plain [("config", JObj items)] items "Box"
           store_with_A "Depth" (JObj [("range", JList [JFloat one_half; JNull])])
           eq_refl).
  - apply list_elem_of_In. right. left. reflexivity.
  - reflexivity.
Defined.


(** *** What an object entry is read for *)

(** X6: of an object entry only the [range] key, or without it the
    [count] key, is read: the entry is processed like the object holding
    that key alone, so [range] shadows [count] and any further key
    (a default, a step, a unit) changes nothing; an object with neither
    key leaves the group as it is. *)
Theorem object_read_for_one_key B y name d g :
  (forall r, dict_get d "range" = Some r ->
     process_param B y name (JObj d) g
     = process_param B y name (JObj [("range", r)]) g)
  /\ (forall c, dict_get d "range" = None -> dict_get d "count" = Some c ->
        process_param B y name (JObj d) g
        = process_param B y name (JObj [("count", c)]) g)
  /\ (dict_get d "range" = None -> dict_get d "count" = None ->
        process_param B y name (JObj d) g = (g, inr tt)).
Proof.
  split; [|split].
  - intros r Hr. unfold process_param.
    rewrite (dict_has_get _ _ _ Hr).
    change (dict_has [("range", r)] "range") with true. cbv iota.
    unfold bind at 1 3, lift at 1 3, dict_item at 1 2. rewrite Hr.
    reflexivity.
  - intros c Hr Hc. unfold process_param.
    rewrite (dict_has_none _ _ Hr), (dict_has_get _ _ _ Hc).
    change (dict_has [("count", c)] "range") with false.
    change (dict_has [("count", c)] "count") with true. cbv iota.
    unfold dict_item. rewrite Hc. reflexivity.
  - intros Hr Hc. unfold process_param.
    now rewrite (dict_has_none _ _ Hr), (dict_has_none _ _ Hc).
Qed.

Lemma object_read_for_one_key_witness :
  process_param plain 0 "Width"
    (JObj [("default", JInt 3); ("count", JList [JInt 7; JInt 9]);
           ("range", JList [JInt 1; JInt 4]); ("unit", JStr "mm")]) (seed "Box")
  = (add_socket (bounded_socket "Width" NodeSocketInt (VInt 1) (VInt 4) (VInt 1))
       (seed "Box"),
     inr tt).
Proof.
  rewrite (proj1 (object_read_for_one_key plain 0 "Width"
                    [("default", JInt 3); ("count", JList [JInt 7; JInt 9]);
                     ("range", JList [JInt 1; JInt 4]); ("unit", JStr "mm")]
                    (seed "Box"))
             (JList [JInt 1; JInt 4]) eq_refl).
  reflexivity.
Defined.


(** *** What the compile leaves of the store *)

(** X7: the compile is not rolled back and reads nothing of the store:
    whether it returns a group or fails, the group it has built so far
    is registered under the target name in place of any older one, it is
    the same group whatever the store held before, and the outcome is
    the same; the groups under other names, the materials and the active
    object stay as they were. *)
Theorem compile_replaces_and_keeps_rest B doc name st st' :
  let out := create_parameter_node_group B doc name st in
  let out' := create_parameter_node_group B doc name st' in
  (exists g, node_groups out.1 !! name = Some g
             /\ ng_name g = name
             /\ node_groups out'.1 !! name = Some g
             /\ (out.2 = Some g \/ out.2 = None))
  /\ out.2 = out'.2
  /\ (forall k, k <> name -> node_groups out.1 !! k = node_groups st !! k)
  /\ materials out.1 = materials st
  /\ active_object out.1 = active_object st.
Proof.
  intros out out'. unfold out, out'. rewrite !create_general. simpl.
  split; [|split; [reflexivity|split; [|split; reflexivity]]].
  - exists (build B doc (empty_group name)).1.
    rewrite !lookup_insert_eq. split; [reflexivity|].
    split; [apply build_keeps_name|]. split; [reflexivity|].
    destruct (build B doc (empty_group name)).2; [now right|now left].
  - intros k Hk. now rewrite lookup_insert_ne.
Qed.


(** *** Lists without strings *)

(** X8: a non-empty list without a string never gets a node or a link,
    only a socket and its annotation: a Bool socket without bounds whose
    default is the first element when every element is a boolean, and
    otherwise (numbers, [null], nested values, or booleans mixed with
    them) an Int socket indexing the list from 0 to its length minus one
    with default 0. *)
Theorem list_without_strings B y name x r g :
  existsb isinstance_str (x :: r) = false ->
  let l := x :: r in
  let out := process_param B y name (JList l) g in
  out.2 = inr tt
  /\ nodes out.1 = nodes g
  /\ links out.1 = links g
  /\ interface out.1
     = interface g ++
       [if forallb isinstance_bool l
        then plain_socket name NodeSocketBool
               (match x with JBool b => Some (VBool b) | _ => None end)
        else bounded_socket name NodeSocketInt
               (VInt 0) (VInt (Z.of_nat (length r))) (VInt 0)]
  /\ get_prop ((if forallb isinstance_bool l then "bool_options_" else "enum_options_")
               +:+ name) (props out.1)
     = Some (join "," (map (py_str B) l)).
Proof.
  intros Hs l out. unfold out, l.
  destruct (forallb isinstance_bool (x :: r)) eqn:Hb.
  - destruct x; try discriminate Hb.
    rewrite (process_bools B y name _ _ g Hs Hb). simpl.
    repeat split. apply get_set_prop.
  - rewrite (process_index B y name _ g Hs Hb).
    replace (Z.of_nat (length (x :: r)) - 1) with (Z.of_nat (length r))
      by (simpl length; lia).
    cbn [fst snd]. repeat split. apply get_set_prop.
Qed.

Lemma list_without_strings_witness :
  let out := process_param plain 0 "Mode" (JList [JBool true; JInt 2; JNull]) (seed "Box") in
  out.2 = inr tt
  /\ interface out.1
     = [geometry_socket;
        bounded_socket "Mode" NodeSocketInt (VInt 0) (VInt 2) (VInt 0)]
  /\ get_prop "enum_options_Mode" (props out.1) = Some "True,2,None".
Proof.
  intros out.
  destruct (list_without_strings plain 0 "Mode" (JBool true) [JInt 2; JNull]
              (seed "Box") eq_refl) as (H1 & _ & _ & H2 & H3).
  split; [exact H1|]. split; [exact H2|exact H3].
Defined.


(** *** Materials *)

Lemma create_each_lookup names : forall (mats : gmap string material) acc n,
  (create_each names mats acc).1 !! n
  = match mats !! n with
    | Some mat => Some mat
    | None => if decide (n ∈ names)
              then Some {| mat_name := n; use_nodes := true |}
              else None
    end.
Proof.
  induction names as [|p r IH]; intros mats acc n.
  - simpl. destruct (mats !! n); [reflexivity|].
    destruct (decide (n ∈ [])) as [H|_]; [now apply elem_of_nil in H|reflexivity].
  - simpl. destruct (mats !! p) as [m|] eqn:Hp.
    + rewrite IH. destruct (mats !! n) eqn:Hn; [reflexivity|].
      destruct (decide (n ∈ r)) as [H|H], (decide (n ∈ p :: r)) as [H'|H'];
        try reflexivity.
      * exfalso. apply H'. now right.
      * apply elem_of_cons in H' as [->|H']; [congruence|contradiction].
    + rewrite IH. unfold host_name. rewrite Hp.
      destruct (decide (p = n)) as [->|Hne].
      * rewrite lookup_insert_eq, Hp.
        destruct (decide (n ∈ n :: r)) as [_|H']; [reflexivity|].
        exfalso. apply H'. now left.
      * rewrite lookup_insert_ne by exact Hne.
        destruct (mats !! n); [reflexivity|].
        destruct (decide (n ∈ r)) as [H|H], (decide (n ∈ p :: r)) as [H'|H'];
          try reflexivity.
        -- exfalso. apply H'. now right.
        -- apply elem_of_cons in H' as [->|H']; [congruence|contradiction].
Qed.

(** X9: the materials after [create_simple_materials], name by name: a
    material that existed is kept as it was, a part without one gets a
    new material of its own name with nodes switched on, and no other
    name gets one; the node groups and the active object are not
    touched, and parts that are no object create nothing. With distinct
    part names the returned list holds the parts that had no material,
    in the order of the parts. *)
Theorem materials_after_binding parts name st :
  let out := create_simple_materials parts name st in
  node_groups out.1 = node_groups st
  /\ active_object out.1 = active_object st
  /\ (forall kvs, parts = JObj kvs ->
        (forall n, materials out.1 !! n
                   = match materials st !! n with
                     | Some mat => Some mat
                     | None => if decide (n ∈ keys kvs)
                               then Some {| mat_name := n; use_nodes := true |}
                               else None
                     end)
        /\ (NoDup (keys kvs) ->
            out.2 = filter (fun n => materials st !! n = None) (keys kvs)))
  /\ ((forall kvs, parts <> JObj kvs) -> out = (st, [])).
Proof.
  intros out. unfold out, create_simple_materials.
  destruct parts as [| | | | | |kvs];
    try (repeat split; intros; discriminate).
  pose proof (create_each_lookup (keys kvs) (materials st) []) as Hl.
  pose proof (create_each_created (keys kvs) (materials st) []) as Hc.
  destruct (create_each (keys kvs) (materials st) []) as [mats created].
  simpl in *. split; [reflexivity|]. split; [reflexivity|]. split.
  - intros kvs' E. injection E as <-. split; [exact Hl|exact Hc].
  - intros H. now destruct (H kvs).
Qed.

Lemma materials_after_binding_witness :
  let out := create_simple_materials (JObj [("A", JObj []); ("B", JObj [])])
               "Table" store_with_A in
  materials out.1 !! "A" = Some {| mat_name := "A"; use_nodes := false |}
  /\ materials out.1 !! "B" = Some {| mat_name := "B"; use_nodes := true |}
  /\ materials out.1 !! "C" = None
  /\ out.2 = ["B"].
Proof.
  intros out.
  destruct (materials_after_binding (JObj [("A", JObj []); ("B", JObj [])])
              "Table" store_with_A) as (_ & _ & H & _).
  destruct (H _ eq_refl) as [Hl Hc].
  split; [exact (Hl "A")|]. split; [exact (Hl "B")|]. split; [exact (Hl "C")|].
  apply Hc. apply (bool_decide_unpack _). vm_compute. exact I.
Defined.


Lemma assign_each_filter names : forall (mats : gmap string material) slots,
  assign_each names mats slots
  = slots ++ filter (fun n => is_Some (mats !! n)) names.
Proof.
  induction names as [|n r IH]; intros mats slots.
  - simpl. now rewrite app_nil_r.
  - simpl. destruct (mats !! n) as [m|] eqn:Hn.
    + rewrite IH, filter_cons_True by (rewrite Hn; eauto).
      now rewrite <- app_assoc.
    + rewrite IH, filter_cons_False; [reflexivity|].
      rewrite Hn. now intros [? ?].
Qed.

(** X10: [assign_materials_to_object] drops whatever the object's slots
    held and fills them with the requested names that are registered
    materials, in the order requested; names without a material are
    passed over and the call still reports success. An object that
    cannot hold materials is left as it is and the call reports
    failure. *)
Theorem slots_after_assignment material_names obj (mats : gmap string material) :
  let out := assign_materials_to_object material_names obj mats in
  obj_name out.1 = obj_name obj
  /\ (forall old, obj_materials obj = Some old ->
        obj_materials out.1
        = Some (filter (fun n => is_Some (mats !! n)) material_names)
        /\ out.2 = true)
  /\ (obj_materials obj = None -> out = (obj, false)).
Proof.
  intros out. unfold out, assign_materials_to_object.
  destruct (obj_materials obj) as [old|] eqn:Ho; simpl.
  - split; [reflexivity|]. split; [|discriminate].
    intros _ _. now rewrite assign_each_filter.
  - split; [reflexivity|]. split; [discriminate|reflexivity].
Qed.

Lemma slots_after_assignment_witness :
  let out := assign_materials_to_object ["B"; "A"; "C"; "A"]
               {| obj_name := "Cube"; obj_materials := Some ["Old"] |}
               (materials store_with_A) in
  obj_materials out.1 = Some ["A"; "A"] /\ out.2 = true.
Proof.
  intros out.
  destruct (slots_after_assignment ["B"; "A"; "C"; "A"]
              {| obj_name := "Cube"; obj_materials := Some ["Old"] |}
              (materials store_with_A)) as (_ & H & _).
  exact (H ["Old"] eq_refl).
Defined.


(** *** Loading a config file *)

(** The closed form of [load_config_file] on a document with a [config]
    section. *)
Lemma load_document B fs path st doc :
  fs !! path = Some (Document (JObj doc)) ->
  dict_has doc "config" = true ->
  load_config_file B fs path st
  = let out := create_parameter_node_group B doc (Path.object_name path) st in
    match out.2 with
    | None => (out.1, None)
    | Some g =>
        match dict_get doc "parts" with
        | None => (out.1, Some g)
        | Some parts =>
            match py_len parts with
            | inl _ => (out.1, None)
            | inr _ =>
                let m := create_simple_materials parts (Path.object_name path) out.1 in
                match m.2, active_object m.1 with
                | _ :: _, Some obj =>
                    ({| node_groups := node_groups m.1;
                        materials := materials m.1;
                        active_object :=
                          Some (assign_materials_to_object m.2 obj (materials m.1)).1 |},
                     Some g)
                | _, _ => (m.1, Some g)
                end
            end
        end
    end.
Proof.
  intros Hf Hc. unfold load_config_file. rewrite Hf, Hc. simpl negb. cbv iota.
  destruct (create_parameter_node_group B doc (Path.object_name path) st) as [st1 [g|]];
    [|reflexivity].
  simpl. destruct (dict_get doc "parts") as [parts|]; [|reflexivity].
  destruct (py_len parts); [reflexivity|].
  destruct (create_simple_materials parts (Path.object_name path) st1) as [st2 [|c created]];
    [reflexivity|].
  simpl. destruct (active_object st2) as [obj|]; [|reflexivity].
  now destruct (assign_materials_to_object (c :: created) obj (materials st2)).
Qed.


Lemma binding_frame parts name st :
  let m := create_simple_materials parts name st in
  node_groups m.1 = node_groups st
  /\ active_object m.1 = active_object st
  /\ forall n mat, materials st !! n = Some mat -> materials m.1 !! n = Some mat.
Proof.
  unfold create_simple_materials. destruct parts as [| | | | | |kvs]; try now repeat split.
  pose proof (create_each_lookup (keys kvs) (materials st) []) as Hl.
  destruct (create_each (keys kvs) (materials st) []) as [mats created].
  simpl in *. repeat split. intros n mat H. now rewrite Hl, H.
Qed.

(** What [load_config_file] does to the store in every case. *)
Lemma load_frame B fs path st :
  let out := load_config_file B fs path st in
  (forall k, k <> Path.object_name path ->
     node_groups out.1 !! k = node_groups st !! k)
  /\ (forall n mat, materials st !! n = Some mat -> materials out.1 !! n = Some mat)
  /\ obj_name <$> active_object out.1 = obj_name <$> active_object st.
Proof.
  intros out. unfold out.
  destruct (fs !! path) as [[|[| | | | | |doc]]|] eqn:Hf;
    try (unfold load_config_file; rewrite Hf; now repeat split).
  destruct (dict_has doc "config") eqn:Hc;
    [|unfold load_config_file; rewrite Hf, Hc; now repeat split].
  rewrite (load_document B fs path st doc Hf Hc).
  rewrite create_general. cbn zeta. cbn [fst snd].
  set (b := build B doc (empty_group (Path.object_name path))).
  set (st1 := {| node_groups := <[Path.object_name path:=b.1]> (node_groups st);
                 materials := materials st; active_object := active_object st |}).
  assert (Hst1 : (forall k, k <> Path.object_name path ->
                    node_groups st1 !! k = node_groups st !! k)
                 /\ (forall n mat, materials st !! n = Some mat ->
                       materials st1 !! n = Some mat)
                 /\ obj_name <$> active_object st1 = obj_name <$> active_object st).
  { split; [|now split]. intros k Hk. simpl. now rewrite lookup_insert_ne. }
  destruct b.2 as [e|u]; [exact Hst1|].
  destruct (dict_get doc "parts") as [parts|]; [|exact Hst1].
  destruct (py_len parts) as [e|len]; [exact Hst1|].
  destruct (binding_frame parts (Path.object_name path) st1) as (Hg & Ha & Hm).
  destruct Hst1 as (H1 & H2 & H3).
  assert (Hm1 : (forall k, k <> Path.object_name path ->
                   node_groups (create_simple_materials parts (Path.object_name path) st1).1 !! k
                   = node_groups st !! k)
                /\ (forall n mat, materials st !! n = Some mat ->
                      materials (create_simple_materials parts (Path.object_name path) st1).1 !! n
                      = Some mat)).
  { split; [intros k Hk; rewrite Hg; now apply H1|].
    intros n mat H. apply Hm. now apply H2. }
  destruct Hm1 as [Hm1 Hm2]. cbn zeta.
  destruct (create_simple_materials parts (Path.object_name path) st1).2 as [|c created];
    cbv iota; cbn [fst snd];
    [split; [exact Hm1|]; split; [exact Hm2|]; now rewrite Ha|].
  destruct (active_object (create_simple_materials parts (Path.object_name path) st1).1)
    as [obj|] eqn:Hobj; cbv iota; cbn [fst snd];
    [|split; [exact Hm1|]; split; [exact Hm2|]; now rewrite Hobj, <- H3, <- Ha].
  cbn [node_groups materials active_object].
  split; [exact Hm1|]. split; [exact Hm2|].
  rewrite <- H3, <- Ha. cbn [fmap option_fmap option_map].
  unfold assign_materials_to_object. now destruct (obj_materials obj).
Qed.


(** A load that returns a group has compiled a document with a [config]
    section, and its node groups are those the compile left. *)
Lemma load_success B fs path st g :
  (load_config_file B fs path st).2 = Some g ->
  exists doc,
    fs !! path = Some (Document (JObj doc))
    /\ dict_has doc "config" = true
    /\ (create_parameter_node_group B doc (Path.object_name path) st).2 = Some g
    /\ node_groups (load_config_file B fs path st).1
       = node_groups (create_parameter_node_group B doc (Path.object_name path) st).1.
Proof.
  intros H.
  destruct (fs !! path) as [[|[| | | | | |doc]]|] eqn:Hf;
    try (unfold load_config_file in H; rewrite Hf in H; discriminate H).
  destruct (dict_has doc "config") eqn:Hc;
    [|unfold load_config_file in H; rewrite Hf, Hc in H; discriminate H].
  exists doc. split; [reflexivity|]. split; [exact Hc|].
  rewrite (load_document B fs path st doc Hf Hc) in *. cbn zeta in *.
  destruct (create_parameter_node_group B doc (Path.object_name path) st) as [st1 [g1|]];
    cbn [fst snd] in *; [|discriminate H].
  destruct (dict_get doc "parts") as [parts|]; [|now split].
  destruct (py_len parts) as [e|len]; [discriminate H|].
  destruct (binding_frame parts (Path.object_name path) st1) as (Hg & _ & _).
  destruct (create_simple_materials parts (Path.object_name path) st1).2 as [|c created];
    cbv iota in *; cbn [fst snd] in *; [now split|].
  destruct (active_object (create_simple_materials parts (Path.object_name path) st1).1);
    cbv iota in *; cbn [fst snd node_groups] in *; now split.
Qed.

(** X11: what [load_config_file] does to the store. In every case the
    node groups under names other than the target name stay as they
    were, no material is removed or changed, and the active object stays
    the same object. When it returns a group, the file held an object
    with a [config] section, the group is the one the compile returned
    for it, it carries the target name and is registered under it. *)
Theorem load_effect B fs path st :
  let out := load_config_file B fs path st in
  (forall k, k <> Path.object_name path ->
     node_groups out.1 !! k = node_groups st !! k)
  /\ (forall n mat, materials st !! n = Some mat -> materials out.1 !! n = Some mat)
  /\ obj_name <$> active_object out.1 = obj_name <$> active_object st
  /\ forall g, out.2 = Some g ->
       ng_name g = Path.object_name path
       /\ node_groups out.1 !! Path.object_name path = Some g
       /\ exists doc,
            fs !! path = Some (Document (JObj doc))
            /\ dict_has doc "config" = true
            /\ (create_parameter_node_group B doc (Path.object_name path) st).2 = Some g.
Proof.
  intros out. destruct (load_frame B fs path st) as (H1 & H2 & H3).
  split; [exact H1|]. split; [exact H2|]. split; [exact H3|].
  intros g Hg. destruct (load_success B fs path st g Hg) as (doc & Hf & Hc & Hs & Hn).
  unfold out. rewrite Hn. rewrite create_general in Hs |- *. simpl in Hs |- *.
  destruct (build B doc (empty_group (Path.object_name path))) as [g1 [e|u]] eqn:Hb;
    simpl in Hs; [discriminate Hs|]. injection Hs as <-.
  split; [|split].
  - pose proof (build_keeps_name B doc (empty_group (Path.object_name path))) as Hk.
    now rewrite Hb in Hk.
  - simpl. apply lookup_insert_eq.
  - exists doc. rewrite create_general, Hb. now repeat split.
Qed.

Lemma load_effect_witness :
  let out := load_config_file plain files_A_B "models/Table_Config.json" store_with_A in
  exists g, out.2 = Some g
            /\ ng_name g = "Table"
            /\ node_groups out.1 !! "Table" = Some g
            /\ materials out.1 !! "A" = Some {| mat_name := "A"; use_nodes := false |}.
Proof.
  intros out.
  destruct (load_effect plain files_A_B "models/Table_Config.json" store_with_A)
    as (_ & H2 & _ & H4).
  exists (seed "Table").
  destruct (H4 (seed "Table") eq_refl) as (Hn & Hr & _).
  split; [reflexivity|]. split; [exact Hn|]. split; [exact Hr|].
  apply H2. reflexivity.
Defined.


(** X12: a [parts] section that is [null], a boolean or a number makes
    the load fail after the compile has succeeded: no group is returned
    (so [main] attaches nothing) although the compiled group has been
    registered under the target name; no material is created and the
    active object is not touched. *)
Theorem unsized_parts_fail_late B fs path st doc parts g :
  fs !! path = Some (Document (JObj doc)) ->
  dict_has doc "config" = true ->
  (create_parameter_node_group B doc (Path.object_name path) st).2 = Some g ->
  dict_get doc "parts" = Some parts ->
  sized parts = false ->
  let out := load_config_file B fs path st in
  out.2 = None
  /\ node_groups out.1 !! Path.object_name path = Some g
  /\ materials out.1 = materials st
  /\ active_object out.1 = active_object st.
Proof.
  intros Hf Hc Hg Hp Hs out. unfold out.
  rewrite (load_document B fs path st doc Hf Hc). cbn zeta. rewrite Hg, Hp.
  assert (exists e, py_len parts = inl e) as [e ->]
    by (destruct parts; try discriminate Hs; eexists; reflexivity).
  rewrite create_general in Hg |- *. simpl in Hg |- *.
  destruct (build B doc (empty_group (Path.object_name path))).2; [discriminate Hg|].
  injection Hg as <-. repeat split. apply lookup_insert_eq.
Qed.

Lemma unsized_parts_fail_late_witness :
  let fs : gmap string file :=
    {[ "Table_Config.json" := Document (JObj [("config", JObj []); ("parts", JNull)]) ]} in
  let out := load_config_file plain fs "Table_Config.json" store_with_A in
  out.2 = None /\ node_groups out.1 !! "Table" = Some (seed "Table").
Proof.
  intros fs out.
  destruct (unsized_parts_fail_late plain fs "Table_Config.json" store_with_A
              [("config", JObj []); ("parts", JNull)] JNull (seed "Table")
              eq_refl eq_refl eq_refl eq_refl eq_refl) as (H1 & H2 & _).
  split; [exact H1|exact H2].
Defined.

(** X13: the materials of the parts are created also when there is
    nothing to assign them to. With no active object, or one that cannot
    hold materials, a load whose compile succeeds on a sized [parts]
    section returns the group, leaves the active object as it is, and
    leaves the materials that [create_simple_materials] makes of the
    parts. *)
Theorem materials_made_without_target B fs path st doc parts g :
  fs !! path = Some (Document (JObj doc)) ->
  dict_has doc "config" = true ->
  (create_parameter_node_group B doc (Path.object_name path) st).2 = Some g ->
  dict_get doc "parts" = Some parts ->
  sized parts = true ->
  (forall obj, active_object st = Some obj -> obj_materials obj = None) ->
  let out := load_config_file B fs path st in
  out.2 = Some g
  /\ active_object out.1 = active_object st
  /\ materials out.1
     = materials (create_simple_materials parts (Path.object_name path) st).1.
Proof.
  intros Hf Hc Hg Hp Hs Hobj out. unfold out.
  rewrite (load_document B fs path st doc Hf Hc). cbn zeta. rewrite Hg, Hp.
  assert (exists len, py_len parts = inr len) as [len ->]
    by (destruct parts; try discriminate Hs; eexists; reflexivity).
  rewrite create_general. cbn [fst snd].
  set (st1 := {| node_groups := _; materials := materials st;
                 active_object := active_object st |}).
  assert (Hsame : materials (create_simple_materials parts (Path.object_name path) st1).1
                  = materials (create_simple_materials parts (Path.object_name path) st).1
                  /\ active_object (create_simple_materials parts (Path.object_name path) st1).1
                     = active_object st).
  { unfold create_simple_materials. destruct parts; try now split.
    simpl. destruct (create_each _ _ _). now split. }
  destruct Hsame as [Hm Ha].
  destruct (create_simple_materials parts (Path.object_name path) st1).2 as [|c created];
    cbv iota; cbn [fst snd]; [now repeat split|].
  destruct (active_object (create_simple_materials parts (Path.object_name path) st1).1)
    as [obj|] eqn:Ho; cbv iota; cbn [fst snd];
    [|repeat split; [now rewrite Ho|exact Hm]].
  cbn [materials active_object].
  unfold assign_materials_to_object. rewrite (Hobj obj (eq_sym Ha)). cbn [fst].
  now repeat split.
Qed.

Lemma materials_made_without_target_witness :
  let st := {| node_groups := ∅; materials := ∅;
               active_object := Some {| obj_name := "Empty"; obj_materials := None |} |} in
  let out := load_config_file plain files_A_B "models/Table_Config.json" st in
  out.2 = Some (seed "Table")
  /\ active_object out.1 = Some {| obj_name := "Empty"; obj_materials := None |}
  /\ materials out.1 !! "B" = Some {| mat_name := "B"; use_nodes := true |}.
Proof.
  intros st out.
  destruct (materials_made_without_target plain files_A_B "models/Table_Config.json" st
              doc_parts_A_B
              (JObj [("A", JObj []); ("B", JObj [])]) (seed "Table")
              eq_refl eq_refl eq_refl eq_refl eq_refl) as (H1 & H2 & H3).
  - intros obj E. injection E as <-. reflexivity.
  - split; [exact H1|]. split; [exact H2|]. unfold out. rewrite H3. reflexivity.
Defined.


(** *** The modifier stack *)

Lemma find_nodes_Some mods : forall i,
  find_nodes mods = Some i ->
  exists m, mods !! i = Some m /\ mod_type m = "NODES"
            /\ forall (j : nat) m', (j < i)%nat -> mods !! j = Some m' ->
                                    mod_type m' <> "NODES".
Proof.
  induction mods as [|m r IH]; intros i H; [discriminate|].
  simpl in H. destruct (String.eqb_spec (mod_type m) "NODES") as [E|E].
  - injection H as <-. exists m. repeat split; [exact E|]. intros j m' Hj. lia.
  - destruct (find_nodes r) as [k|]; [|discriminate]. injection H as <-.
    destruct (IH k eq_refl) as (m0 & H0 & Ht & Hb). exists m0.
    repeat split; [exact H0|exact Ht|].
    intros [|j] m' Hj Hm'; [now injection Hm' as <-|].
    apply (Hb j m'); [lia|exact Hm'].
Qed.

Lemma find_nodes_None mods :
  find_nodes mods = None -> Forall (fun m => mod_type m <> "NODES") mods.
Proof.
  induction mods as [|m r IH]; intros H; [constructor|].
  simpl in H. destruct (String.eqb_spec (mod_type m) "NODES") as [E|E]; [discriminate|].
  destruct (find_nodes r); [discriminate|]. constructor; [exact E|now apply IH].
Qed.

Lemma find_nodes_types mods mods' :
  map mod_type mods = map mod_type mods' -> find_nodes mods = find_nodes mods'.
Proof.
  revert mods'. induction mods as [|m r IH]; intros [|m' r'] H; try discriminate;
    [reflexivity|].
  injection H as Hm Hr. simpl. now rewrite Hm, (IH r' Hr).
Qed.

Lemma find_nodes_app_new mods m :
  find_nodes mods = None -> mod_type m = "NODES" ->
  find_nodes (mods ++ [m]) = Some (length mods).
Proof.
  intros Hn Hm. induction mods as [|m0 r IH]; simpl in *.
  - now rewrite Hm.
  - destruct (String.eqb (mod_type m0) "NODES"); [discriminate|].
    destruct (find_nodes r); [discriminate|]. now rewrite IH.
Qed.

Lemma alter_types group (i : nat) (mods : list modifier) :
  map mod_type (alter (set_node_group group) i mods) = map mod_type mods
  /\ map mod_name (alter (set_node_group group) i mods) = map mod_name mods.
Proof.
  revert i. induction mods as [|m r IH]; intros [|i]; try now split.
  destruct (IH i) as [H1 H2]. split; simpl.
  - f_equal. exact H1.
  - f_equal. exact H2.
Qed.


(** The modifier [attach] gives the group to, with its place. *)
Lemma attach_target g mods :
  exists (i : nat) m,
    find_nodes (attach g mods) = Some i
    /\ attach g mods !! i = Some m
    /\ mod_type m = "NODES"
    /\ mod_node_group m = Some (ng_name g)
    /\ (forall j : nat, j <> i -> (j < length mods)%nat -> attach g mods !! j = mods !! j)
    /\ match find_nodes mods with
       | Some i0 => i = i0 /\ length (attach g mods) = length mods
       | None => i = length mods /\ length (attach g mods) = S (length mods)
       end.
Proof.
  unfold attach. destruct (find_nodes mods) as [i|] eqn:Hf.
  - destruct (find_nodes_Some mods i Hf) as (m & Hm & Ht & _).
    exists i, (set_node_group (ng_name g) m).
    split; [|split; [|split; [|split; [|split]]]].
    + rewrite <- Hf. apply find_nodes_types. apply alter_types.
    + now rewrite list_lookup_alter_eq, Hm.
    + exact Ht.
    + reflexivity.
    + intros j Hj _. now rewrite list_lookup_alter_ne by congruence.
    + split; [reflexivity|apply length_alter].
  - set (new := {| mod_name := host_name (names_taken mods) (ng_name g);
                   mod_type := "NODES"; mod_node_group := None |}).
    exists (length mods), (set_node_group (ng_name g) new).
    split; [|split; [|split; [|split; [|split]]]].
    + rewrite <- (find_nodes_app_new mods new Hf eq_refl).
      apply find_nodes_types. apply alter_types.
    + rewrite list_lookup_alter_eq, lookup_app_r by lia.
      now rewrite Nat.sub_diag.
    + reflexivity.
    + reflexivity.
    + intros j Hj Hlt. rewrite list_lookup_alter_ne by lia.
      now rewrite lookup_app_l.
    + split; [reflexivity|]. rewrite length_alter, length_app. simpl. lia.
Qed.



(** A stack with two geometry-nodes modifiers, and one with none. *)
Example attach_on_samples :
  attach (seed "Table")
    [{| mod_name := "Bevel"; mod_type := "BEVEL"; mod_node_group := None |};
     {| mod_name := "Nodes"; mod_type := "NODES"; mod_node_group := Some "Old" |};
     {| mod_name := "More"; mod_type := "NODES"; mod_node_group := Some "Other" |}]
  = [{| mod_name := "Bevel"; mod_type := "BEVEL"; mod_node_group := None |};
     {| mod_name := "Nodes"; mod_type := "NODES"; mod_node_group := Some "Table" |};
     {| mod_name := "More"; mod_type := "NODES"; mod_node_group := Some "Other" |}]
  /\ map mod_name (attach (seed "Table")
                     [{| mod_name := "Bevel"; mod_type := "BEVEL";
                         mod_node_group := None |}])
     = ["Bevel"; "Table"].
Proof.
  split; reflexivity.
Qed.


(** *** Which file [main] loads *)

Lemma after_dashes_split pre post :
  "--" ∉ pre -> after_dashes (pre ++ "--" :: post) = post.
Proof.
  induction pre as [|a pre IH]; intros H; [reflexivity|].
  apply not_elem_of_cons in H as [Ha H]. simpl.
  destruct (String.eqb_spec a "--") as [->|_]; [congruence|]. now apply IH.
Qed.

Lemma after_dashes_none args : "--" ∉ args -> after_dashes args = [].
Proof.
  induction args as [|a r IH]; intros H; [reflexivity|].
  apply not_elem_of_cons in H as [Ha H]. simpl.
  destruct (String.eqb_spec a "--") as [->|_]; [congruence|]. now apply IH.
Qed.

(** X15: the order in which [main] settles on a path. A non-empty
    [CONFIG_PATH] wins over everything else. Without it the path is the
    first argument after the first [--] of the command line; arguments
    before the [--], and all arguments of a command line without [--],
    are never taken for a path. Only when nothing follows the [--], or
    there is none, is the directory of the blend file searched, and the
    outcome then depends on that directory alone. *)
Theorem path_resolution_order env :
  (forall c p, CONFIG_PATH env = Some (String c p) ->
     config_path env = Some (String c p))
  /\ (CONFIG_PATH env = None \/ CONFIG_PATH env = Some "" ->
      (forall pre arg rest,
         argv env = pre ++ "--" :: arg :: rest -> "--" ∉ pre ->
         config_path env = Some arg)
      /\ ("--" ∉ argv env \/ (exists pre, argv env = pre ++ ["--"] /\ "--" ∉ pre) ->
          config_path env
          = config_path {| CONFIG_PATH := None; argv := [];
                           blend_dir := blend_dir env;
                           directories := directories env;
                           files := ∅ |})).
Proof.
  split.
  - intros c p H. unfold config_path. now rewrite H.
  - intros Hc. split.
    + intros pre arg rest Ha Hpre. unfold config_path.
      rewrite Ha, (after_dashes_split pre _ Hpre).
      now destruct Hc as [-> | ->].
    + intros Ha. unfold config_path at 1.
      assert (after_dashes (argv env) = []) as ->.
      { destruct Ha as [Ha|(pre & -> & Hpre)];
          [now apply after_dashes_none|now apply after_dashes_split]. }
      now destruct Hc as [-> | ->].
Qed.

Lemma path_resolution_order_witness :
  let env := {| CONFIG_PATH := None;
                argv := ["blender"; "shelf.blend"; "ignored.json"; "--";
                         "Table_Config.json"; "--"; "more"];
                blend_dir := "/models/";
                directories := ∅; files := ∅ |} in
  config_path env = Some "Table_Config.json".
Proof.
  intros env.
  refine (proj1 (proj2 (path_resolution_order env) (or_introl eq_refl))
            ["blender"; "shelf.blend"; "ignored.json"] "Table_Config.json"
            ["--"; "more"] eq_refl _).
  apply (bool_decide_unpack _). vm_compute. exact I.
Defined.

(** *** Runs that change nothing *)

Lemma filter_two (P : string -> bool) names : forall (i j : nat) a b,
  (i < j)%nat -> names !! i = Some a -> names !! j = Some b ->
  P a = true -> P b = true ->
  exists x y r, List.filter P names = x :: y :: r.
Proof.
  induction names as [|n r IH]; intros i j a b Hij Hi Hj Ha Hb; [discriminate|].
  destruct j as [|j]; [lia|]. simpl in Hj. destruct i as [|i].
  - injection Hi as ->. simpl. rewrite Ha.
    assert (In b (List.filter P r)) as Hin.
    { apply filter_In. split; [|exact Hb].
      apply list_elem_of_In. now apply list_elem_of_lookup_2 in Hj. }
    destruct (List.filter P r) as [|y r']; [destruct Hin|]. eauto.
  - simpl in Hi.
    destruct (IH i j a b ltac:(lia) Hi Hj Ha Hb) as (x & y & r' & E).
    simpl. rewrite E. destruct (P n); eauto.
Qed.

Lemma search_fails env names :
  CONFIG_PATH env = None \/ CONFIG_PATH env = Some "" ->
  after_dashes (argv env) = [] ->
  directories env !! blend_dir env = Some names ->
  (forall f, List.filter is_config_file names <> [f]) ->
  config_path env = None.
Proof.
  intros Hc Ha Hd Hn. unfold config_path. rewrite Ha, Hd.
  assert ((if String.eqb (blend_dir env) "" then None
           else match List.filter is_config_file names with
                | [] => None
                | [f] => Some (join_path (blend_dir env) f)
                | _ :: _ :: _ => None
                end) = None) as ->.
  { destruct (String.eqb (blend_dir env) ""); [reflexivity|].
    destruct (List.filter is_config_file names) as [|f [|f' r]]; try reflexivity.
    now destruct (Hn f). }
  now destruct Hc as [-> | ->].
Qed.

(** X16: with no path given, a directory holding two or more files
    whose names end in [_Config.json] or [_config.json] (or none at all)
    makes [main] stop before loading anything: node groups, materials,
    active object and modifiers stay as they are, whatever the files
    hold. *)
Theorem ambiguous_directory_changes_nothing B env w names :
  CONFIG_PATH env = None \/ CONFIG_PATH env = Some "" ->
  after_dashes (argv env) = [] ->
  directories env !! blend_dir env = Some names ->
  (exists (i j : nat) a b,
     (i < j)%nat /\ names !! i = Some a /\ names !! j = Some b
     /\ is_config_file a = true /\ is_config_file b = true)
  \/ Forall (fun f => is_config_file f = false) names ->
  main B env w = w.
Proof.
  intros Hc Ha Hd Hn. unfold main.
  rewrite (search_fails env names Hc Ha Hd); [reflexivity|].
  intros f. destruct Hn as [(i & j & a & b & Hij & Hi & Hj & Hpa & Hpb)|Hall].
  - destruct (filter_two is_config_file names i j a b Hij Hi Hj Hpa Hpb)
      as (x & y & r & ->). discriminate.
  - assert (List.filter is_config_file names = []) as ->; [|discriminate].
    clear -Hall. induction Hall as [|f r Hf _ IH]; [reflexivity|].
    simpl. now rewrite Hf.
Qed.

Lemma ambiguous_directory_changes_nothing_witness :
  let env := {| CONFIG_PATH := None; argv := ["blender"];
                blend_dir := "/models/";
                directories := {[ "/models/" := ["Chair_Config.json"; "notes.txt";
                                                 "Table_config.json"] ]};
                files := {[ "/models/Chair_Config.json"
                            := Document (JObj doc_parts_A_B) ]} |} in
  let w := {| data := store_with_A; modifiers := [] |} in
  main plain env w = w.
Proof.
  intros env w.
  apply (ambiguous_directory_changes_nothing plain env w
           ["Chair_Config.json"; "notes.txt"; "Table_config.json"]
           (or_introl eq_refl) eq_refl eq_refl).
  left. exists 0%nat, 2%nat, "Chair_Config.json", "Table_config.json".
  repeat split. lia.
Defined.


Lemma load_unusable B fs path st :
  compiles fs path = false -> load_config_file B fs path st = (st, None).
Proof.
  unfold compiles, load_config_file.
  destruct (fs !! path) as [[|[| | | | | |doc]]|]; try reflexivity.
  now intros ->.
Qed.

(** X17: a file that cannot be used costs nothing. When the path
    [main] settles on names no file, a file that is not JSON, a JSON
    value that is no object, or an object without a [config] key, the
    run changes nothing: no group is removed or registered, no material
    is created, and the modifiers of the active object stay as they
    are. *)
Theorem unusable_file_changes_nothing B env w path :
  config_path env = Some path ->
  files env !! path = None
  \/ files env !! path = Some BadJSON
  \/ (exists v, files env !! path = Some (Document v)
                /\ forall doc, v = JObj doc -> dict_has doc "config" = false) ->
  main B env w = w.
Proof.
  intros Hp Hf. unfold main. rewrite Hp.
  assert (compiles (files env) path = false) as Hc.
  { unfold compiles. destruct Hf as [-> | [-> | (v & -> & Hv)]]; try reflexivity.
    destruct v; try reflexivity. now apply Hv. }
  rewrite (load_unusable B _ _ _ Hc), Hc. now destruct w.
Qed.

Lemma unusable_file_changes_nothing_witness :
  let env := {| CONFIG_PATH := Some "/models/Table_Config.json"; argv := [];
                blend_dir := "";
                directories := ∅;
                files := {[ "/models/Table_Config.json"
                            := Document (JObj [("parts", JObj [("A", JObj [])])]) ]} |} in
  let w := {| data := store_with_A;
              modifiers := [{| mod_name := "Nodes"; mod_type := "NODES";
                               mod_node_group := None |}] |} in
  main plain env w = w.
Proof.
  intros env w.
  apply (unusable_file_changes_nothing plain env w "/models/Table_Config.json" eq_refl).
  right. right. eexists. split; [reflexivity|].
  intros doc E. injection E as <-. reflexivity.
Defined.


(** *** Runs that load a file *)

(** [main] once the path is settled. *)
Lemma main_run B env w path :
  config_path env = Some path ->
  main B env w
  = let out := load_config_file B (files env) path (data w) in
    let mods := if compiles (files env) path
                then released (Path.object_name path) w
                else modifiers w in
    match out.2, active_object out.1 with
    | Some g, Some _ => {| data := out.1; modifiers := attach g mods |}
    | _, _ => {| data := out.1; modifiers := mods |}
    end.
Proof.
  intros Hp. unfold main, released. rewrite Hp.
  now destruct (load_config_file B (files env) path (data w)) as [st [g|]].
Qed.






(** *** The file found in the directory *)

Lemma endswith_unfold suffix s :
  endswith suffix s
  = String.eqb s suffix
    || match s with
       | EmptyString => false
       | String _ r => endswith suffix r
       end.
Proof. now destruct s. Qed.

Lemma endswith_split suffix s :
  endswith suffix s = true -> exists x, s = x +:+ suffix.
Proof.
  induction s as [|a s IH]; rewrite endswith_unfold; intros H;
    apply orb_true_iff in H as [H|H]; try discriminate H.
  - apply String.eqb_eq in H as <-. now exists "".
  - apply String.eqb_eq in H as <-. now exists "".
  - destruct (IH H) as [x ->]. now exists (String a x).
Qed.

Lemma startswith_slash f : Path.rfind "/" f = -1 -> Path.startswith "/" f = false.
Proof.
  destruct f as [|a f]; [reflexivity|].
  change (Path.startswith "/" (String a f)) with (Ascii.eqb "/" a && true).
  change (Path.rfind "/" (String a f))
    with (if 0 <=? Path.rfind "/" f then Path.rfind "/" f + 1
          else if Ascii.eqb a "/" then 0 else -1).
  destruct (Z.leb_spec 0 (Path.rfind "/" f)); [lia|].
  rewrite andb_true_r, (Ascii.eqb_sym "/" a).
  destruct (Ascii.eqb a "/"); [discriminate|reflexivity].
Qed.

Lemma basename_join dir f :
  Path.rfind "/" f = -1 -> Path.basename (join_path dir f) = f.
Proof.
  intros Hf. unfold join_path. rewrite (startswith_slash f Hf).
  destruct (String.eqb_spec dir "") as [->|_]; simpl orb.
  - rewrite append_nil_l. now apply basename_plain.
  - destruct (endswith "/" dir) eqn:He.
    + apply endswith_split in He as [d ->]. rewrite append_assoc.
      now apply basename_in_dir.
    + now apply basename_in_dir.
Qed.

Lemma filter_single (P : string -> bool) pre f post :
  Forall (fun x => P x = false) pre -> P f = true ->
  Forall (fun x => P x = false) post ->
  List.filter P (pre ++ f :: post) = [f].
Proof.
  intros Hpre Hf Hpost. rewrite List.filter_app. simpl. rewrite Hf.
  assert (forall l, Forall (fun x => P x = false) l -> List.filter P l = []) as Hnil.
  { intros l Hl. induction Hl as [|x r Hx _ IH]; [reflexivity|].
    simpl. now rewrite Hx. }
  now rewrite (Hnil pre Hpre), (Hnil post Hpost).
Qed.

(** X19: the search of the blend file's directory. With no path given
    and a directory that lists exactly one name ending in
    [_Config.json] or [_config.json], [main] settles on that file in
    that directory, wherever in the listing it stands; the directory
    plays no part in the target name, which is that of the file name
    alone. *)
Theorem search_takes_the_single_config env pre f post :
  CONFIG_PATH env = None \/ CONFIG_PATH env = Some "" ->
  after_dashes (argv env) = [] ->
  blend_dir env <> "" ->
  directories env !! blend_dir env = Some (pre ++ f :: post) ->
  is_config_file f = true ->
  Forall (fun x => is_config_file x = false) pre ->
  Forall (fun x => is_config_file x = false) post ->
  Path.rfind "/" f = -1 ->
  config_path env = Some (join_path (blend_dir env) f)
  /\ Path.basename (join_path (blend_dir env) f) = f
  /\ Path.object_name (join_path (blend_dir env) f) = Path.object_name f.
Proof.
  intros Hc Ha Hb Hd Hf Hpre Hpost Hs.
  pose proof (basename_join (blend_dir env) f Hs) as Hbase.
  split; [|split; [exact Hbase|]].
  - unfold config_path. rewrite Ha, Hd, (filter_single _ pre f post Hpre Hf Hpost).
    apply String.eqb_neq in Hb as ->. now destruct Hc as [-> | ->].
  - unfold Path.object_name. now rewrite Hbase, (basename_plain f Hs).
Qed.

Lemma search_takes_the_single_config_witness :
  let env := {| CONFIG_PATH := Some ""; argv := ["blender"; "shelf.blend"];
                blend_dir := "/home/me/models/";
                directories := {[ "/home/me/models/" :=
                                  ["shelf.blend"; "Table_config.json"; "config.json"] ]};
                files := ∅ |} in
  config_path env = Some "/home/me/models/Table_config.json"
  /\ Path.object_name "/home/me/models/Table_config.json" = "Table".
Proof.
  intros env.
  assert (Hd : directories env !! blend_dir env
               = Some (["shelf.blend"] ++ "Table_config.json" :: ["config.json"]))
    by (vm_compute; reflexivity).
  assert (Hf : is_config_file "Table_config.json" = true) by (vm_compute; reflexivity).
  assert (Hpre : Forall (fun x => is_config_file x = false) ["shelf.blend"])
    by (constructor; [vm_compute; reflexivity|constructor]).
  assert (Hpost : Forall (fun x => is_config_file x = false) ["config.json"])
    by (constructor; [vm_compute; reflexivity|constructor]).
  assert (Hs : Path.rfind "/" "Table_config.json" = -1) by (vm_compute; reflexivity).
  assert (Hb : blend_dir env <> "") by discriminate.
  destruct (search_takes_the_single_config env ["shelf.blend"] "Table_config.json"
              ["config.json"] (or_intror eq_refl) eq_refl Hb Hd Hf Hpre Hpost Hs)
    as (H1 & _ & H3).
  split; [rewrite H1; vm_compute; reflexivity|vm_compute; reflexivity].
Defined.


(** *** Running the script again *)

Lemma bpy_eta (s : bpy) :
  {| node_groups := node_groups s; materials := materials s;
     active_object := active_object s |} = s.
Proof. now destruct s. Qed.

(** A store that has the materials of a binding creates none. *)
Lemma binding_again parts name st s :
  materials s = materials (create_simple_materials parts name st).1 ->
  create_simple_materials parts name s = (s, []).
Proof.
  unfold create_simple_materials. destruct parts as [| | | | | |kvs]; try reflexivity.
  intros Hm.
  pose proof (create_each_spec (keys kvs) (materials st) []) as (_ & Hall & _).
  destruct (create_each (keys kvs) (materials st) []) as [mats created].
  simpl in Hm, Hall. rewrite <- Hm in Hall.
  rewrite (create_each_all_exist (keys kvs) (materials s) [] Hall).
  now rewrite bpy_eta.
Qed.

Lemma binding_shape parts name st :
  let m := create_simple_materials parts name st in
  m.1 = {| node_groups := node_groups st; materials := materials m.1;
           active_object := active_object st |}.
Proof.
  unfold create_simple_materials. destruct parts as [| | | | | |kvs];
    try (simpl; now rewrite bpy_eta).
  now destruct (create_each (keys kvs) (materials st) []).
Qed.

(** Loading the same file again changes nothing and returns the same. *)
Lemma load_again B fs path st :
  load_config_file B fs path (load_config_file B fs path st).1
  = load_config_file B fs path st.
Proof.
  destruct (compiles fs path) eqn:Hc.
  2:{ rewrite (load_unusable B fs path st Hc). now apply load_unusable. }
  unfold compiles in Hc.
  destruct (fs !! path) as [[|[| | | | | |doc]]|] eqn:Hf; try discriminate Hc.
  rewrite (load_document B fs path st doc Hf Hc). cbn zeta.
  rewrite create_general. cbn zeta. cbn [fst snd].
  set (t := Path.object_name path).
  set (b := build B doc (empty_group t)).
  set (st1 := {| node_groups := <[t:=b.1]> (node_groups st);
                 materials := materials st; active_object := active_object st |}).
  assert (Hcompile : forall s, node_groups s = <[t:=b.1]> (node_groups st) ->
            create_parameter_node_group B doc t s
            = (s, match b.2 with inl _ => None | inr _ => Some b.1 end)).
  { intros s Hs. rewrite create_general. cbn zeta. fold b.
    now rewrite Hs, insert_insert_eq, <- Hs, bpy_eta. }
  destruct b.2 as [e|u] eqn:Hb.
  { cbn [fst]. rewrite (load_document B fs path st1 doc Hf Hc). cbn zeta.
    fold t. now rewrite (Hcompile st1 eq_refl). }
  destruct (dict_get doc "parts") as [parts|] eqn:Hp.
  2:{ cbn [fst]. rewrite (load_document B fs path st1 doc Hf Hc). cbn zeta.
      fold t. now rewrite (Hcompile st1 eq_refl), Hp. }
  destruct (py_len parts) as [e|len] eqn:Hlen.
  { cbn [fst]. rewrite (load_document B fs path st1 doc Hf Hc). cbn zeta.
    fold t. now rewrite (Hcompile st1 eq_refl), Hp, Hlen. }
  pose proof (binding_shape parts t st1) as Hshape. cbn zeta in Hshape.
  set (m := create_simple_materials parts t st1) in *.
  assert (Hfixed : forall s, node_groups s = <[t:=b.1]> (node_groups st) ->
                     materials s = materials m.1 ->
                     load_config_file B fs path s = (s, Some b.1)).
  { intros s Hn Hm. rewrite (load_document B fs path s doc Hf Hc). cbn zeta.
    fold t. rewrite (Hcompile s Hn), Hp, Hlen. cbn [fst snd].
    now rewrite (binding_again parts t st1 s Hm). }
  destruct m.2 as [|c created].
  { cbn [fst]. apply Hfixed; [now rewrite Hshape|reflexivity]. }
  destruct (active_object m.1) as [obj|].
  - cbn [fst]. now apply Hfixed; [rewrite Hshape|].
  - cbn [fst]. apply Hfixed; [now rewrite Hshape|reflexivity].
Qed.


Lemma unlink_release t mods : unlink t mods = map (release t) mods.
Proof. reflexivity. Qed.

Lemma unlink_lookup t (mods : list modifier) (j : nat) :
  unlink t mods !! j = release t <$> mods !! j.
Proof.
  rewrite unlink_release. revert j.
  induction mods as [|m r IH]; intros [|j]; try reflexivity. apply IH.
Qed.

Lemma release_clean t m : mod_node_group (release t m) <> Some t.
Proof.
  unfold release. destruct (mod_node_group m) as [n|] eqn:E; [|now rewrite E].
  destruct (String.eqb_spec n t) as [->|Hne]; [discriminate|].
  rewrite E. congruence.
Qed.

Lemma release_id t m : mod_node_group m <> Some t -> release t m = m.
Proof.
  intros H. unfold release. destruct (mod_node_group m) as [n|]; [|reflexivity].
  destruct (String.eqb_spec n t) as [->|_]; [congruence|reflexivity].
Qed.

Lemma unlink_id t mods :
  Forall (fun m => mod_node_group m <> Some t) mods -> unlink t mods = mods.
Proof.
  rewrite unlink_release. induction 1 as [|m r Hm _ IH]; [reflexivity|].
  simpl. now rewrite IH, (release_id t m Hm).
Qed.

Lemma unlink_types t mods : map mod_type (unlink t mods) = map mod_type mods.
Proof.
  rewrite unlink_release. induction mods as [|m r IH]; [reflexivity|].
  simpl. rewrite IH. f_equal. unfold release.
  destruct (mod_node_group m) as [n|]; [|reflexivity].
  now destruct (String.eqb n t).
Qed.

(** The stack the compile leaves runs no group of the target name. *)
Lemma released_clean t w :
  linked w = true ->
  Forall (fun m => mod_node_group m <> Some t) (released t w).
Proof.
  intros Hl. unfold released.
  destruct (node_groups (data w) !! t) as [old|] eqn:Ht.
  - rewrite unlink_release. apply Forall_forall. intros m Hin.
    apply list_elem_of_In, in_map_iff in Hin as (m0 & <- & _). apply release_clean.
  - unfold linked in Hl. rewrite forallb_forall in Hl.
    apply Forall_forall. intros m Hin E.
    specialize (Hl m (proj1 (list_elem_of_In _ _) Hin)). rewrite E in Hl.
    apply bool_decide_eq_true in Hl. rewrite Ht in Hl. now destruct Hl.
Qed.

(** Removing the group and attaching it again gives the same stack. *)
Lemma attach_unlink g mods :
  Forall (fun m => mod_node_group m <> Some (ng_name g)) mods ->
  attach g (unlink (ng_name g) (attach g mods)) = attach g mods.
Proof.
  intros Hclean.
  destruct (attach_target g mods) as (i & m & Hf & Hm & _ & Hg & Ho & Hc).
  assert (find_nodes (unlink (ng_name g) (attach g mods)) = Some i) as Hf'.
  { rewrite <- Hf. apply find_nodes_types, unlink_types. }
  unfold attach at 1. rewrite Hf'.
  apply list_eq. intros j. destruct (decide (j = i)) as [->|Hne].
  - rewrite list_lookup_alter_eq, unlink_lookup, Hm. simpl. f_equal.
    unfold release. rewrite Hg, String.eqb_refl.
    destruct m. simpl in *. now subst.
  - rewrite list_lookup_alter_ne by congruence. rewrite unlink_lookup.
    destruct (attach g mods !! j) as [m'|] eqn:Hj; [|reflexivity].
    simpl. f_equal. apply release_id.
    assert (j < length mods)%nat as Hlt.
    { apply lookup_lt_Some in Hj.
      destruct (find_nodes mods); destruct Hc as [-> Hlen]; lia. }
    rewrite (Ho j Hne Hlt) in Hj.
    rewrite Forall_forall in Hclean. apply Hclean.
    now apply list_elem_of_lookup_2 in Hj.
Qed.

(** A load that compiles leaves a group under the target name; a group
    it returns is that one. *)
Lemma load_registers B fs path st :
  compiles fs path = true ->
  is_Some (node_groups (load_config_file B fs path st).1 !! Path.object_name path)
  /\ forall g, (load_config_file B fs path st).2 = Some g ->
               ng_name g = Path.object_name path.
Proof.
  intros Hc. unfold compiles in Hc.
  destruct (fs !! path) as [[|[| | | | | |doc]]|] eqn:Hf; try discriminate Hc.
  rewrite (load_document B fs path st doc Hf Hc). cbn zeta.
  rewrite create_general. cbn zeta. cbn [fst snd].
  set (t := Path.object_name path).
  pose proof (build_keeps_name B doc (empty_group t)) as Hk. simpl in Hk.
  set (b := build B doc (empty_group t)) in *.
  set (st1 := {| node_groups := <[t:=b.1]> (node_groups st);
                 materials := materials st; active_object := active_object st |}).
  assert (H1 : is_Some (node_groups st1 !! t))
    by (simpl; rewrite lookup_insert_eq; eauto).
  destruct b.2 as [e|u]; [split; [exact H1|discriminate]|].
  destruct (dict_get doc "parts") as [parts|];
    [|split; [exact H1|intros g Hg; now injection Hg as <-]].
  destruct (py_len parts) as [e|len]; [split; [exact H1|discriminate]|].
  destruct (binding_frame parts t st1) as (Hg & _ & _).
  destruct (create_simple_materials parts t st1).2 as [|c created];
    cbv iota; cbn [fst snd];
    [split; [now rewrite Hg|intros g E; now injection E as <-]|].
  destruct (active_object (create_simple_materials parts t st1).1);
    cbv iota; cbn [fst snd node_groups];
    (split; [now rewrite Hg|intros g E; now injection E as <-]).
Qed.

(** X20: running the script a second time changes nothing. For a world
    whose modifiers run registered groups only, [main] after [main] is
    [main]: the group is rebuilt as it was, no further material is
    created, the slots of the active object are left as the first run
    filled them, and the modifier that was given the group still has
    it, without a second modifier being added. *)
Theorem second_run_changes_nothing B env w :
  linked w = true ->
  main B env (main B env w) = main B env w.
Proof.
  intros Hl. destruct (config_path env) as [path|] eqn:Hp.
  2:{ unfold main. now rewrite Hp. }
  rewrite (main_run B env (main B env w) path Hp).
  rewrite (main_run B env w path Hp). cbn zeta.
  destruct (compiles (files env) path) eqn:Hc.
  - pose proof (released_clean (Path.object_name path) w Hl) as Hclean.
    destruct (load_registers B (files env) path (data w) Hc) as [[old Hold] Hname].
    set (L := load_config_file B (files env) path (data w)) in *.
    set (mods1 := released (Path.object_name path) w) in *.
    assert (Hagain : forall ms,
              load_config_file B (files env) path (data {| data := L.1; modifiers := ms |})
              = L) by (intros ms; apply load_again).
    assert (Hrel : forall ms,
              released (Path.object_name path) {| data := L.1; modifiers := ms |}
              = unlink (Path.object_name path) ms)
      by (intros ms; unfold released; cbn [data modifiers]; now rewrite Hold).
    destruct L.2 as [g|] eqn:Hg.
    + destruct (active_object L.1) as [obj|] eqn:Ha.
      * rewrite Hagain, Hrel, Hg, Ha. f_equal.
        rewrite <- (Hname g eq_refl). apply attach_unlink.
        now rewrite (Hname g eq_refl).
      * rewrite Hagain, Hrel, Hg, Ha. f_equal. now apply unlink_id.
    + rewrite Hagain, Hrel, Hg. f_equal. now apply unlink_id.
  - rewrite (load_unusable B (files env) path (data w) Hc). cbn [fst snd].
    cbn [data modifiers]. now rewrite (load_unusable B (files env) path (data w) Hc).
Qed.

Lemma second_run_changes_nothing_witness :
  let env := {| CONFIG_PATH := Some "models/Table_Config.json"; argv := [];
                blend_dir := ""; directories := ∅; files := files_A_B |} in
  let w := {| data := store_with_A;
              modifiers := [{| mod_name := "Bevel"; mod_type := "BEVEL";
                               mod_node_group := None |}] |} in
  main plain env (main plain env w) = main plain env w.
Proof.
  intros env w.
  apply (second_run_changes_nothing plain env w). reflexivity.
Defined.


(** *** Bounds written as strings *)

Lemma are_integers_string B lo hi r :
  isinstance_str lo = true \/ isinstance_str hi = true ->
  are_integers B lo hi = inr r -> r = false.
Proof.
  intros Hs H. unfold are_integers in H.
  assert (isinstance_int lo && isinstance_int hi = false) as E.
  { destruct Hs as [Hs|Hs]; [destruct lo|destruct hi]; try discriminate Hs;
      [reflexivity|apply andb_false_r]. }
  rewrite E in H. unfold rbind in H.
  destruct (py_int B lo) as [e|i]; [discriminate H|].
  destruct (py_eq_int lo i) eqn:Hlo; [|now injection H as <-].
  destruct (py_int B hi) as [e|j]; [discriminate H|]. injection H as <-.
  destruct Hs as [Hs|Hs]; [destruct lo|destruct hi]; try discriminate Hs;
    [discriminate Hlo|reflexivity].
Qed.

(** X21: a range with a bound written as a string never gives an Int
    socket. Whatever [int] and [float] make of the text, when the entry
    is got through the socket is a Float socket whose bounds are the
    [float] of the two bounds and whose default is their mean: the
    string ["1"] is not equal to the integer 1, so the integer test
    fails even where both bounds read as whole numbers. *)
Theorem string_bound_gives_float B y name d lo hi rest g g' :
  dict_get d "range" = Some (JList (lo :: hi :: rest)) ->
  isinstance_str lo = true \/ isinstance_str hi = true ->
  process_param B y name (JObj d) g = (g', inr tt) ->
  exists a b,
    py_float B lo = inr a /\ py_float B hi = inr b
    /\ g' = add_socket
              (bounded_socket name NodeSocketFloat (VFloat a) (VFloat b)
                 (VFloat (fdiv (fadd a b) two))) g.
Proof.
  intros Hr Hs H. unfold process_param in H.
  rewrite (dict_has_get _ _ _ Hr) in H.
  unfold bind at 1, lift at 1, dict_item in H. rewrite Hr in H. cbv beta iota in H.
  unfold bind at 1, lift at 1 in H. simpl getitem in H. cbv beta iota in H.
  unfold bind at 1, lift at 1 in H. simpl getitem in H. cbv beta iota in H.
  unfold bind at 1, lift at 1 in H.
  destruct (are_integers B lo hi) as [e|r] eqn:Hint; [discriminate H|].
  apply (are_integers_string B lo hi r Hs) in Hint as ->. cbv beta iota in H.
  unfold bind at 1, lift at 1 in H.
  destruct (py_float B lo) as [e|a]; [discriminate H|]. cbv beta iota in H.
  unfold bind at 1, lift at 1 in H.
  destruct (py_float B hi) as [e|b]; [discriminate H|]. cbv beta iota zeta in H.
  rewrite new_bounded_socket in H. injection H as <-.
  exists a, b. now repeat split.
Qed.

Lemma string_bound_gives_float_witness :
  let out := process_param reads_1_and_5 0 "Width"
               (JObj [("range", JList [JStr "1"; JInt 5])]) (seed "Box") in
  interface out.1
  = [geometry_socket;
     bounded_socket "Width" NodeSocketFloat
       (VFloat (float_of_Z 1)) (VFloat (float_of_Z 5)) (VFloat (float_of_Z 3))].
Proof.
  intros out.
  destruct (string_bound_gives_float reads_1_and_5 0 "Width"
              [("range", JList [JStr "1"; JInt 5])] (JStr "1") (JInt 5) []
              (seed "Box") out.1 eq_refl (or_introl eq_refl))
    as (a & b & Ha & Hb & Hg).
  - vm_compute. reflexivity.
  - rewrite Hg. vm_compute in Ha, Hb. injection Ha as <-. injection Hb as <-.
    vm_compute. reflexivity.
Defined.
